(** * Novara real-time session layer (src/api/index.js)

    A shallow embedding of the socket.io part of the server: the
    [connection] handler and the per-socket handlers [typing],
    [stopTyping], [sendFile], [markAsSeen] and [disconnect], together
    with the process-wide [onlineUsers] set and the ChatSession
    collection they read and write.

    Handlers are written in a small monad that threads the server's
    world, collects what the handler sends and prints, and lets a
    JavaScript exception escape or be caught by [try]/[catch]. *)

From Stdlib Require Import String List ZArith Bool Lia.
Import ListNotations.
Local Open Scope string_scope.
Local Open Scope list_scope.

(** ** JavaScript values the handlers look at *)

Module Js.

(** A destructured payload field is a string or is absent
    ([undefined]); [None] is the absent field. *)

(** [if (s)] on a string: only the empty string is falsy. *)
Definition truthy (s : string) : bool := negb (s =? "").

(** [if (f)] on a field: [undefined] is falsy. *)
Definition truthy_field (f : option string) : bool :=
  match f with
  | Some s => truthy s
  | None => false
  end.

(** [a === b] with [a] a string. *)
Definition strict_eq (a : string) (b : option string) : bool :=
  match b with
  | Some s => a =? s
  | None => false
  end.

(** The order [Array.prototype.sort] uses without a comparator:
    strings by code units, [undefined] after every string. *)
Definition before (x y : option string) : bool :=
  match x, y with
  | Some a, Some b => a <=? b
  | Some _, None => true
  | None, Some _ => false
  | None, None => true
  end.

Fixpoint insert (x : option string) (l : list (option string))
  : list (option string) :=
  match l with
  | [] => [x]
  | y :: l' => if before x y then x :: l else y :: insert x l'
  end.

(** [arr.sort()]: stable, ascending. *)
Definition sort (arr : list (option string)) : list (option string) :=
  fold_right insert [] arr.

(** Equality of two arrays of strings, as an exact array match
    compares them: same length, same entries, same order. *)
Fixpoint array_eqb (a b : list (option string)) : bool :=
  match a, b with
  | [], [] => true
  | Some x :: a', Some y :: b' => (x =? y) && array_eqb a' b'
  | None :: a', None :: b' => array_eqb a' b'
  | _, _ => false
  end.

(** A JavaScript [Set] of strings keeps insertion order and holds no
    value twice; [[...set]] lists it in that order. *)
Definition set_has (s : list string) (x : string) : bool :=
  existsb (String.eqb x) s.

Definition set_add (s : list string) (x : string) : list string :=
  if set_has s x then s else s ++ [x].

Definition set_delete (s : list string) (x : string) : list string :=
  filter (fun y => negb (y =? x)) s.

End Js.

(** ** Data model *)

Module Message.

(** One entry of [session.messages].  [seen] is [None] on an object
    that has no [seen] key. *)
Record t := mk {
  senderId : string;
  receiverId : string;
  fileData : string;
  fileName : string;
  fileType : string;
  isFile : bool;
  timestamp : Z;
  seen : option bool
}.

(** [{ ...msg, seen: b }] *)
Definition with_seen (msg : t) (b : bool) : t :=
  {| senderId := senderId msg;
     receiverId := receiverId msg;
     fileData := fileData msg;
     fileName := fileName msg;
     fileType := fileType msg;
     isFile := isFile msg;
     timestamp := timestamp msg;
     seen := Some b |}.

(** [!msg.seen]: a missing key and [false] both count as unseen. *)
Definition not_seen (msg : t) : bool :=
  match seen msg with
  | Some true => false
  | _ => true
  end.

(** Modelled from the spec: the message sub-schema of
    models/ChatSession.js is not under src/.  The spec gives a
    Message [seen: bool (default false)], so an object stored in
    [session.messages] without a [seen] key gets [seen = false]. *)
Definition cast (msg : t) : t :=
  match seen msg with
  | None => with_seen msg false
  | Some _ => msg
  end.

End Message.

Module ChatSession.

Record t := mk {
  participants : list (option string);
  messages : list Message.t
}.

(** A document held by a handler: [stored_at] is its place in the
    collection, [None] for a document made by [new ChatSession] that
    has not been saved yet. *)
Record doc := mkdoc {
  stored_at : option nat;
  value : t
}.

Fixpoint findOne_from (i : nat) (coll : list t)
         (query : list (option string)) : option doc :=
  match coll with
  | [] => None
  | s :: rest =>
      if Js.array_eqb (participants s) query
      then Some {| stored_at := Some i; value := s |}
      else findOne_from (S i) rest query
  end.

(** [ChatSession.findOne({ participants })]: the first stored
    session whose participants array equals the query array. *)
Definition findOne (coll : list t) (query : list (option string))
  : option doc :=
  findOne_from 0 coll query.

(** [new ChatSession({ participants, messages: [] })] *)
Definition new (participants : list (option string)) : doc :=
  {| stored_at := None;
     value := {| participants := participants; messages := [] |} |}.

(** [session.messages.push(msg)]: the array casts the pushed object
    with the message sub-schema. *)
Definition push (session : doc) (msg : Message.t) : doc :=
  {| stored_at := stored_at session;
     value := {| participants := participants (value session);
                 messages := messages (value session)
                               ++ [Message.cast msg] |} |}.

(** [session.messages = msgs] *)
Definition set_messages (session : doc) (msgs : list Message.t) : doc :=
  {| stored_at := stored_at session;
     value := {| participants := participants (value session);
                 messages := msgs |} |}.

Fixpoint replace_at (i : nat) (s : t) (coll : list t) : list t :=
  match coll, i with
  | [], _ => []
  | _ :: rest, O => s :: rest
  | x :: rest, S j => x :: replace_at j s rest
  end.

(** What a successful [session.save()] leaves in the collection: a
    stored document is written back in place, a new one is added. *)
Definition saved (coll : list t) (session : doc) : list t :=
  match stored_at session with
  | Some i => replace_at i (value session) coll
  | None => coll ++ [value session]
  end.

End ChatSession.

Module Socket.

(** A connection that passed the token check: its socket.io [id] and
    the [userId] the handler stored on it.  It sits in two rooms, the
    one named by its id (socket.io puts it there) and the one named
    by its user ([socket.join(userId)]). *)
Record t := mk {
  id : string;
  userId : string
}.

Definition in_room (room : option string) (s : t) : bool :=
  match room with
  | Some r => (r =? id s) || (r =? userId s)
  | None => false
  end.

End Socket.

(** Events the server sends to clients. *)
Inductive ServerEvent :=
| UserOnline (userId : string)
| UserOffline (userId : string)
| OnlineUsers (users : list string)
| Typing (senderId : string) (receiverId : option string)
| StopTyping (senderId : string) (receiverId : option string)
| ReceiveFile (newMessage : Message.t)
| MessageSeen (senderId : option string) (receiverId : string).

(** What a handler does to the outside: an event delivered to one
    connection, a console line, or the server closing a connection. *)
Inductive Output :=
| Emit (to : string) (ev : ServerEvent)
| ConsoleLog (line : string)
| ConsoleError (line : string)
| SocketDisconnect (sid : string).

Inductive Exn :=
| TypeError (what : string)
| JsonWebTokenError
| MongoError.

(** The server's state: the [onlineUsers] set, the connections that
    are bound to a user, and the ChatSession collection. *)
Record World := mkWorld {
  onlineUsers : list string;
  sockets : list Socket.t;
  chatSessions : list ChatSession.t
}.

(** Whether the database calls of one handler run fail (the
    collection is unreachable, the document does not validate). *)
Record DbFaults := mkFaults {
  findOne_fails : bool;
  save_fails : bool
}.

Definition no_faults : DbFaults :=
  {| findOne_fails := false; save_fails := false |}.

(** The payload of a [sendFile] event, field by field. *)
Record SendFilePayload := mkSendFile {
  sf_receiverId : option string;
  sf_fileData : option string;
  sf_fileName : option string;
  sf_fileType : option string
}.

(** The events whose handler destructures its argument. *)
Inductive EventName :=
| EvTyping
| EvStopTyping
| EvSendFile
| EvMarkAsSeen.

(** What reaches the server from a client.  A messaging event comes
    with a payload, of which any field may be absent, or, as
    [OnBare], with no payload at all ([undefined] or [null]).  [now]
    is the clock read by [new Date()]. *)
Inductive ClientEvent :=
| OnConnection (sid : string) (token : string)
| OnTyping (sid : string) (receiverId : option string)
| OnStopTyping (sid : string) (receiverId : option string)
| OnSendFile (sid : string) (payload : SendFilePayload) (now : Z)
             (faults : DbFaults)
| OnMarkAsSeen (sid : string) (senderId : option string)
               (faults : DbFaults)
| OnDisconnect (sid : string)
| OnBare (sid : string) (event : EventName).

(** ** The handler monad *)

Inductive Completion (A : Type) :=
| Normal (a : A)
| Throw (e : Exn).
Arguments Normal {A} a.
Arguments Throw {A} e.

Definition M (A : Type) : Type :=
  World -> Completion A * World * list Output.

Definition ret {A} (a : A) : M A := fun w => (Normal a, w, []).

Definition bind {A B} (m : M A) (k : A -> M B) : M B := fun w =>
  match m w with
  | (Normal a, w1, o1) =>
      let '(r, w2, o2) := k a w1 in (r, w2, o1 ++ o2)
  | (Throw e, w1, o1) => (Throw e, w1, o1)
  end.

Definition throw {A} (e : Exn) : M A := fun w => (Throw e, w, []).

(** [try { m } catch (error) { h error }] *)
Definition tryCatch {A} (m : M A) (h : Exn -> M A) : M A := fun w =>
  match m w with
  | (Normal a, w1, o1) => (Normal a, w1, o1)
  | (Throw e, w1, o1) =>
      let '(r, w2, o2) := h e w1 in (r, w2, o1 ++ o2)
  end.

Notation "x <- m ;; k" := (bind m (fun x => k))
  (at level 61, m at next level, right associativity).
Notation "m ;; k" := (bind m (fun _ => k))
  (at level 61, right associativity).

Definition out (o : list Output) : M unit := fun w => (Normal tt, w, o).

Definition consoleLog (line : string) : M unit := out [ConsoleLog line].
Definition consoleError (line : string) : M unit := out [ConsoleError line].

Definition deliver (ev : ServerEvent) (to : list Socket.t) : list Output :=
  map (fun s => Emit (Socket.id s) ev) to.

(** [io.emit(ev)]: every bound connection. *)
Definition io_emit (ev : ServerEvent) : M unit := fun w =>
  (Normal tt, w, deliver ev (sockets w)).

(** [io.to(room).emit(ev)]: every connection in the room. *)
Definition io_to (room : option string) (ev : ServerEvent) : M unit :=
  fun w =>
    (Normal tt, w, deliver ev (filter (Socket.in_room room) (sockets w))).

(** [socket.to(room).emit(ev)]: the room without the socket itself. *)
Definition socket_to (self : Socket.t) (room : option string)
           (ev : ServerEvent) : M unit := fun w =>
  (Normal tt, w,
   deliver ev (filter (fun s => Socket.in_room room s
                                && negb (Socket.id s =? Socket.id self))
                      (sockets w))).

(** [socket.emit(ev)] *)
Definition socket_emit (sid : string) (ev : ServerEvent) : M unit :=
  out [Emit sid ev].

(** [socket.disconnect()] on a connection that was never bound. *)
Definition socket_disconnect (sid : string) : M unit :=
  out [SocketDisconnect sid].

(** [socket.userId = userId; socket.join(userId)] *)
Definition socket_join (sid userId : string) : M unit := fun w =>
  (Normal tt,
   {| onlineUsers := onlineUsers w;
      sockets := sockets w ++ [ {| Socket.id := sid; Socket.userId := userId |} ];
      chatSessions := chatSessions w |},
   []).

Definition onlineUsers_add (userId : string) : M unit := fun w =>
  (Normal tt,
   {| onlineUsers := Js.set_add (onlineUsers w) userId;
      sockets := sockets w;
      chatSessions := chatSessions w |},
   []).

Definition onlineUsers_delete (userId : string) : M unit := fun w =>
  (Normal tt,
   {| onlineUsers := Js.set_delete (onlineUsers w) userId;
      sockets := sockets w;
      chatSessions := chatSessions w |},
   []).

(** [[...onlineUsers]] *)
Definition onlineUsers_spread : M (list string) := fun w =>
  (Normal (onlineUsers w), w, []).

(** [await ChatSession.findOne({ participants })] *)
Definition ChatSession_findOne (faults : DbFaults)
           (participants : list (option string))
  : M (option ChatSession.doc) := fun w =>
  if findOne_fails faults then (Throw MongoError, w, [])
  else (Normal (ChatSession.findOne (chatSessions w) participants), w, []).

(** [await session.save()] *)
Definition session_save (faults : DbFaults) (session : ChatSession.doc)
  : M unit := fun w =>
  if save_fails faults then (Throw MongoError, w, [])
  else (Normal tt,
        {| onlineUsers := onlineUsers w;
           sockets := sockets w;
           chatSessions := ChatSession.saved (chatSessions w) session |},
        []).

(** [field.length]: reading a property of [undefined] throws. *)
Definition length_of (field : option string) : M nat :=
  match field with
  | Some s => ret (String.length s)
  | None =>
      throw (TypeError "Cannot read properties of undefined (reading 'length')")
  end.

(** ** The handlers *)

Section Server.

(** [jwt.verify(token, process.env.JWT_SECRET)] followed by
    [decoded.userId]: the user a token was issued for, [None] where
    [verify] throws (bad signature, expired, malformed). *)
Variable jwt_verify : string -> option string.

Definition jwt_verify_userId (token : string) : M string :=
  match jwt_verify token with
  | Some userId => ret userId
  | None => throw JsonWebTokenError
  end.

(** [io.on('connection', ...)], up to the point where the socket's
    own handlers are registered. *)
Definition on_connection (sid token : string) : M unit :=
  consoleLog "User connected:" ;;
  tryCatch
    (userId <- jwt_verify_userId token ;;
     socket_join sid userId ;;
     onlineUsers_add userId ;;
     io_emit (UserOnline userId) ;;
     users <- onlineUsers_spread ;;
     socket_emit sid (OnlineUsers users))
    (fun error =>
       consoleLog "Invalid token on socket connection:" ;;
       socket_disconnect sid).

(** [socket.on('typing', ...)] *)
Definition on_typing (socket : Socket.t) (receiverId : option string)
  : M unit :=
  socket_to socket receiverId (Typing (Socket.userId socket) receiverId).

(** [socket.on('stopTyping', ...)] *)
Definition on_stopTyping (socket : Socket.t) (receiverId : option string)
  : M unit :=
  socket_to socket receiverId (StopTyping (Socket.userId socket) receiverId).

(** [!receiverId || !fileData || !fileName || !fileType] *)
Definition missing_fields (p : SendFilePayload) : bool :=
  negb (Js.truthy_field (sf_receiverId p))
  || negb (Js.truthy_field (sf_fileData p))
  || negb (Js.truthy_field (sf_fileName p))
  || negb (Js.truthy_field (sf_fileType p)).

(** The string in a field that the check above has seen present. *)
Definition field (f : option string) : string :=
  match f with
  | Some s => s
  | None => ""
  end.

(** The object literal [newMessage]: it has no [seen] key. *)
Definition newMessage (socket : Socket.t) (p : SendFilePayload) (now : Z)
  : Message.t :=
  {| Message.senderId := Socket.userId socket;
     Message.receiverId := field (sf_receiverId p);
     Message.fileData := field (sf_fileData p);
     Message.fileName := field (sf_fileName p);
     Message.fileType := field (sf_fileType p);
     Message.isFile := true;
     Message.timestamp := now;
     Message.seen := None |}.

(** Lines 122 to 126: look the pair up under its sorted key, make an
    empty session where there is none. *)
Definition findOrCreate (faults : DbFaults) (a b : option string)
  : M ChatSession.doc :=
  let participants := Js.sort [a; b] in
  found <- ChatSession_findOne faults participants ;;
  match found with
  | Some session => ret session
  | None => ret (ChatSession.new participants)
  end.

(** [socket.on('sendFile', ...)] *)
Definition on_sendFile (socket : Socket.t) (p : SendFilePayload)
           (now : Z) (faults : DbFaults) : M unit :=
  consoleLog "Received sendFile event from:" ;;
  consoleLog "Receiver ID:" ;;
  consoleLog "File Name:" ;;
  consoleLog "File Type:" ;;
  _ <- length_of (sf_fileData p) ;;
  consoleLog "File Data Size:" ;;
  if missing_fields p then
    consoleError "Missing file data fields"
  else
    tryCatch
      (session <- findOrCreate faults (Some (Socket.userId socket))
                               (sf_receiverId p) ;;
       let msg := newMessage socket p now in
       let session := ChatSession.push session msg in
       session_save faults session ;;
       consoleLog "File saved to DB" ;;
       io_to (sf_receiverId p) (ReceiveFile msg) ;;
       io_to (Some (Socket.userId socket)) (ReceiveFile msg))
      (fun error => consoleError "Error processing sendFile:").

(** The callback of [session.messages.map] in [markAsSeen]. *)
Definition mark (senderId : option string) (msg : Message.t) : Message.t :=
  if Js.strict_eq (Message.senderId msg) senderId && Message.not_seen msg
  then Message.with_seen msg true
  else msg.

(** [socket.on('markAsSeen', ...)] *)
Definition on_markAsSeen (socket : Socket.t) (senderId : option string)
           (faults : DbFaults) : M unit :=
  tryCatch
    (let receiverId := Socket.userId socket in
     let participants := Js.sort [senderId; Some receiverId] in
     found <- ChatSession_findOne faults participants ;;
     match found with
     | Some session =>
         let session :=
           ChatSession.set_messages session
             (map (mark senderId)
                  (ChatSession.messages (ChatSession.value session))) in
         session_save faults session ;;
         io_to senderId (MessageSeen senderId receiverId)
     | None => ret tt
     end)
    (fun error => consoleError "Error marking messages as seen:").

(** [socket.on('disconnect', ...)]; socket.io has taken the socket
    out of its rooms and of the server's list before it runs. *)
Definition on_disconnect (socket : Socket.t) : M unit :=
  consoleLog "User disconnected:" ;;
  if Js.truthy (Socket.userId socket) then
    onlineUsers_delete (Socket.userId socket) ;;
    io_emit (UserOffline (Socket.userId socket))
  else ret tt.

(** *** Dispatch *)

Definition find_socket (sid : string) (w : World) : option Socket.t :=
  find (fun s => Socket.id s =? sid) (sockets w).

(** Only a bound connection has handlers: an event on any other
    socket id reaches no code of the server. *)
Definition with_socket (sid : string) (k : Socket.t -> M unit) : M unit :=
  fun w =>
    match find_socket sid w with
    | Some socket => k socket w
    | None => (Normal tt, w, [])
    end.

Definition socket_leave (sid : string) : M unit := fun w =>
  (Normal tt,
   {| onlineUsers := onlineUsers w;
      sockets := filter (fun s => negb (Socket.id s =? sid)) (sockets w);
      chatSessions := chatSessions w |},
   []).

(** The property a handler's parameter pattern takes from its
    argument: [({ receiverId }) => ...], [({ receiverId, fileData,
    fileName, fileType }) => ...], [({ senderId }) => ...]. *)
Definition first_property (event : EventName) : string :=
  match event with
  | EvMarkAsSeen => "senderId"
  | _ => "receiverId"
  end.

(** Binding the parameter pattern to [undefined] throws, before any
    line of the handler's body and outside its [try]. *)
Definition destructure_undefined (event : EventName) : M unit :=
  throw (TypeError ("Cannot destructure property '" ++ first_property event
                    ++ "' of 'undefined' as it is undefined.")).

Definition handle (ev : ClientEvent) : M unit :=
  match ev with
  | OnConnection sid token => on_connection sid token
  | OnTyping sid receiverId =>
      with_socket sid (fun socket => on_typing socket receiverId)
  | OnStopTyping sid receiverId =>
      with_socket sid (fun socket => on_stopTyping socket receiverId)
  | OnSendFile sid p now faults =>
      with_socket sid (fun socket => on_sendFile socket p now faults)
  | OnMarkAsSeen sid senderId faults =>
      with_socket sid (fun socket => on_markAsSeen socket senderId faults)
  | OnDisconnect sid =>
      with_socket sid (fun socket =>
        socket_leave sid ;; on_disconnect socket)
  | OnBare sid event =>
      with_socket sid (fun socket => destructure_undefined event)
  end.

(** The three parts of a handler run. *)
Definition completion {A} (r : Completion A * World * list Output)
  : Completion A := fst (fst r).
Definition world {A} (r : Completion A * World * list Output) : World :=
  snd (fst r).
Definition outputs {A} (r : Completion A * World * list Output)
  : list Output := snd r.

(** The events a run delivered, in order, each with the connection
    that got it. *)
Fixpoint emits (o : list Output) : list (string * ServerEvent) :=
  match o with
  | [] => []
  | Emit to ev :: rest => (to, ev) :: emits rest
  | _ :: rest => emits rest
  end.

(** The handlers applied to a sequence of client events, each run to
    its end from the world the one before left.  An exception that
    escapes a handler ends the Node process: what [run] gives past
    such a step is what the handlers would do, and a statement that
    needs a living server asks that every handler ended normally
    ([all_normal] below). *)
Fixpoint run (w : World) (evs : list ClientEvent) : World * list Output :=
  match evs with
  | [] => (w, [])
  | ev :: rest =>
      let r := handle ev w in
      let '(w', o) := run (world r) rest in
      (w', outputs r ++ o)
  end.

(** No handler of the sequence lets an exception escape. *)
Fixpoint all_normal (w : World) (evs : list ClientEvent) : bool :=
  match evs with
  | [] => true
  | ev :: rest =>
      match completion (handle ev w) with
      | Normal _ => all_normal (world (handle ev w)) rest
      | Throw _ => false
      end
  end.

(** socket.io gives a new connection an id no live connection has. *)
Definition admissible (w : World) (ev : ClientEvent) : bool :=
  match ev with
  | OnConnection sid _ =>
      negb (existsb (fun s => Socket.id s =? sid) (sockets w))
  | _ => true
  end.

(** The worlds the server can be in: it starts with nobody online
    and no connection, over whatever the database holds. *)
Inductive reachable : World -> Prop :=
| reachable_start (coll : list ChatSession.t) :
    reachable {| onlineUsers := []; sockets := []; chatSessions := coll |}
| reachable_step (w : World) (ev : ClientEvent) :
    reachable w ->
    admissible w ev = true ->
    reachable (world (handle ev w)).

End Server.

Arguments Js.sort : simpl never.

(** ** A small deployment to run the server on *)

Module Demo.

(** Two users with one good token each; every other token is bad. *)
Definition verify (token : string) : option string :=
  if token =? "token-A" then Some "A"
  else if token =? "token-B" then Some "B"
  else None.

Definition start : World :=
  {| onlineUsers := []; sockets := []; chatSessions := [] |}.

Definition sA : Socket.t := {| Socket.id := "s1"; Socket.userId := "A" |}.
Definition sB : Socket.t := {| Socket.id := "s2"; Socket.userId := "B" |}.

(** A and B connected, one connection each. *)
Definition both : World :=
  {| onlineUsers := ["A"; "B"]; sockets := [sA; sB]; chatSessions := [] |}.

Definition photo : SendFilePayload :=
  {| sf_receiverId := Some "B";
     sf_fileData := Some "iVBORw0KGgo=";
     sf_fileName := Some "cat.png";
     sf_fileType := Some "image/png" |}.

(** The same upload with the [fileData] field left out. *)
Definition photo_without_data : SendFilePayload :=
  {| sf_receiverId := Some "B";
     sf_fileData := None;
     sf_fileName := Some "cat.png";
     sf_fileType := Some "image/png" |}.

(** What the clock shows when the file arrives. *)
Definition clock : Z := 1700000000000%Z.

(** The session the upload leaves in the collection. *)
Definition upload_doc : ChatSession.doc :=
  {| ChatSession.stored_at := Some 0;
     ChatSession.value :=
       {| ChatSession.participants := [Some "A"; Some "B"];
          ChatSession.messages :=
            [Message.cast (newMessage sA photo clock)] |} |}.

(** A sends B a file, B has not read it. *)
Definition after_upload : World :=
  world (handle verify (OnSendFile "s1" photo clock no_faults) both).

End Demo.

(** ** What each handler run amounts to *)

(** The session [sendFile] saves: the stored one for the pair, or a
    new one, with the message pushed. *)
Definition sendFile_session (w : World) (socket : Socket.t)
           (p : SendFilePayload) (now : Z) : ChatSession.doc :=
  let participants :=
    Js.sort [Some (Socket.userId socket); sf_receiverId p] in
  ChatSession.push
    (match ChatSession.findOne (chatSessions w) participants with
     | Some session => session
     | None => ChatSession.new participants
     end)
    (newMessage socket p now).

(** The session [markAsSeen] saves when it found [session]. *)
Definition markAsSeen_session (session : ChatSession.doc)
           (senderId : option string) : ChatSession.doc :=
  ChatSession.set_messages session
    (map (mark senderId) (ChatSession.messages (ChatSession.value session))).

Definition with_sessions (w : World) (coll : list ChatSession.t) : World :=
  {| onlineUsers := onlineUsers w;
     sockets := sockets w;
     chatSessions := coll |}.

Definition sendFile_prelude : list Output :=
  [ConsoleLog "Received sendFile event from:"; ConsoleLog "Receiver ID:";
   ConsoleLog "File Name:"; ConsoleLog "File Type:"].

(** A user with at least one bound connection. *)
Definition live (w : World) (userId : string) : Prop :=
  exists s, In s (sockets w) /\ Socket.userId s = userId.

(** Presence by connection count: online exactly when some connection
    of the user is bound. *)
Definition presence_iff_live (w : World) : Prop :=
  forall userId, In userId (onlineUsers w) <-> live w userId.

(** The deliveries of a run that are [onlineUsers] snapshots. *)
Definition is_snapshot (d : string * ServerEvent) : bool :=
  match snd d with
  | OnlineUsers _ => true
  | _ => false
  end.

(** The field of a delivered event that says who caused it: the
    [senderId] of typing, stopTyping and receiveFile, the [receiverId]
    of messageSeen (the user who read the messages). *)
Definition caller_of (ev : ServerEvent) : option string :=
  match ev with
  | Typing senderId _ => Some senderId
  | StopTyping senderId _ => Some senderId
  | ReceiveFile msg => Some (Message.senderId msg)
  | MessageSeen _ receiverId => Some receiverId
  | _ => None
  end.

(** The events a bound connection can send while it stays bound. *)
Definition client_event_of (sid : string) (ev : ClientEvent) : Prop :=
  match ev with
  | OnTyping s _ | OnStopTyping s _ | OnSendFile s _ _ _
  | OnMarkAsSeen s _ _ | OnBare s _ => s = sid
  | _ => False
  end.

(** An event that does not end the binding of connection [sid]: not
    its disconnect, and no new connection under its id. *)
Definition keeps_bound (sid : string) (ev : ClientEvent) : bool :=
  match ev with
  | OnConnection s _ | OnDisconnect s => negb (s =? sid)
  | _ => true
  end.

(** ** The users route *)

Module User.

(** A document of [User.find({}, 'username')]: the projection keeps
    [_id] and [username]. *)
Record t := mk {
  _id : string;
  username : string
}.

End User.

(** [req.user] as the route sees it: [None] when no middleware set
    it, [Some None] when it has no [userId]. *)
Record Request := mkRequest {
  req_user : option (option string)
}.

Inductive ResponseBody :=
| UsersBody (users : list User.t)
| ErrorBody (error : string).

Record Response := mkResponse {
  status : nat;
  body : ResponseBody
}.

(** The callback of [users.filter]: reading [req.user.userId] throws
    when [req.user] is undefined. *)
Definition not_the_caller (req : Request) (user : User.t) : string + bool :=
  match req_user req with
  | None => inl "Cannot read properties of undefined (reading 'userId')"
  | Some userId => inr (negb (Js.strict_eq (User._id user) userId))
  end.

(** [arr.filter(f)] with a callback that may throw: the first throw
    ends the filter. *)
Fixpoint filter_throwing {A : Type} (f : A -> string + bool) (arr : list A)
  : string + list A :=
  match arr with
  | [] => inr []
  | x :: rest =>
      match f x with
      | inl error => inl error
      | inr keep =>
          match filter_throwing f rest with
          | inl error => inl error
          | inr kept => inr (if keep then x :: kept else kept)
          end
      end
  end.

(** [app.get('/api/users', ...)] after the middleware: [found] is what
    [await User.find] gave, a list or the message of its error. *)
Definition get_users (found : string + list User.t) (req : Request)
  : Response :=
  match found with
  | inl error => {| status := 400; body := ErrorBody error |}
  | inr users =>
      match filter_throwing (not_the_caller req) users with
      | inl error => {| status := 400; body := ErrorBody error |}
      | inr kept => {| status := 200; body := UsersBody kept |}
      end
  end.

(** ** Statements about the store *)

(** What of a message is fixed when it is stored: everything but
    [seen]. *)
Definition message_identity (msg : Message.t)
  : string * string * string * string * string * bool * Z :=
  (Message.senderId msg, Message.receiverId msg, Message.fileData msg,
   Message.fileName msg, Message.fileType msg, Message.isFile msg,
   Message.timestamp msg).

(** [s'] is [s] later on: same participants, every message of [s]
    still at its place with its identity, a message that was seen
    still seen; messages may have been added at the end. *)
Definition session_extends (s s' : ChatSession.t) : Prop :=
  ChatSession.participants s' = ChatSession.participants s
  /\ forall k msg,
      nth_error (ChatSession.messages s) k = Some msg ->
      exists msg',
        nth_error (ChatSession.messages s') k = Some msg'
        /\ message_identity msg' = message_identity msg
        /\ (Message.seen msg = Some true -> Message.seen msg' = Some true).

(** Every session of [coll] is still at its place in [coll'], extended. *)
Definition store_extends (coll coll' : list ChatSession.t) : Prop :=
  forall i s,
    nth_error coll i = Some s ->
    exists s', nth_error coll' i = Some s' /\ session_extends s s'.

(** Every message of [coll'] is sent by [userId] or was in [coll], in
    the same session at the same position, with the same sender,
    receiver, file fields and timestamp. *)
Definition adds_only_messages_of (userId : string)
           (coll coll' : list ChatSession.t) : Prop :=
  forall i s' k msg',
    nth_error coll' i = Some s' ->
    nth_error (ChatSession.messages s') k = Some msg' ->
    Message.senderId msg' = userId
    \/ exists s msg,
        nth_error coll i = Some s
        /\ nth_error (ChatSession.messages s) k = Some msg
        /\ message_identity msg' = message_identity msg.



(** The events of the per-socket messaging handlers. *)
Definition is_messaging (ev : ClientEvent) : bool :=
  match ev with
  | OnConnection _ _ | OnDisconnect _ => false
  | _ => true
  end.

(** ** Facts about the handlers *)

(** Open the three parts of a handler run. *)
Ltac run_parts := unfold completion, world, outputs; cbn [fst snd].

Lemma emits_app (a b : list Output) : emits (a ++ b) = emits a ++ emits b.
Proof.
  induction a as [|x a IH]; [reflexivity|].
  destruct x; cbn; rewrite IH; reflexivity.
Qed.

Lemma emits_deliver (ev : ServerEvent) (to : list Socket.t) :
  emits (deliver ev to) = map (fun s => (Socket.id s, ev)) to.
Proof.
  unfold deliver.
  induction to as [|s to IH]; cbn; [reflexivity|]. now rewrite IH.
Qed.

Lemma on_sendFile_run (socket : Socket.t) (p : SendFilePayload) (now : Z)
      (faults : DbFaults) (w : World) :
  on_sendFile socket p now faults w =
  match sf_fileData p with
  | None =>
      (Throw (TypeError "Cannot read properties of undefined (reading 'length')"),
       w, sendFile_prelude)
  | Some _ =>
      if missing_fields p then
        (Normal tt, w,
         sendFile_prelude ++ [ConsoleLog "File Data Size:";
                              ConsoleError "Missing file data fields"])
      else if findOne_fails faults || save_fails faults then
        (Normal tt, w,
         sendFile_prelude ++ [ConsoleLog "File Data Size:";
                              ConsoleError "Error processing sendFile:"])
      else
        (Normal tt,
         with_sessions w
           (ChatSession.saved (chatSessions w)
              (sendFile_session w socket p now)),
         sendFile_prelude
           ++ [ConsoleLog "File Data Size:"; ConsoleLog "File saved to DB"]
           ++ deliver (ReceiveFile (newMessage socket p now))
                (filter (Socket.in_room (sf_receiverId p)) (sockets w))
           ++ deliver (ReceiveFile (newMessage socket p now))
                (filter (Socket.in_room (Some (Socket.userId socket)))
                        (sockets w)))
  end.
Proof.
  unfold on_sendFile, sendFile_session.
  destruct (sf_fileData p) as [d|]; cbn; [|reflexivity].
  destruct (missing_fields p); cbn; [reflexivity|].
  unfold tryCatch, findOrCreate, ChatSession_findOne, session_save, bind.
  destruct faults as [ff sf]; cbn.
  destruct ff; cbn; [reflexivity|].
  destruct (ChatSession.findOne _ _); cbn; destruct sf; cbn;
    rewrite ?app_nil_r; reflexivity.
Qed.

Lemma on_markAsSeen_run (socket : Socket.t) (senderId : option string)
      (faults : DbFaults) (w : World) :
  on_markAsSeen socket senderId faults w =
  if findOne_fails faults then
    (Normal tt, w, [ConsoleError "Error marking messages as seen:"])
  else
    match ChatSession.findOne (chatSessions w)
            (Js.sort [senderId; Some (Socket.userId socket)]) with
    | None => (Normal tt, w, [])
    | Some session =>
        if save_fails faults then
          (Normal tt, w, [ConsoleError "Error marking messages as seen:"])
        else
          (Normal tt,
           with_sessions w
             (ChatSession.saved (chatSessions w)
                (markAsSeen_session session senderId)),
           deliver (MessageSeen senderId (Socket.userId socket))
             (filter (Socket.in_room senderId) (sockets w)))
    end.
Proof.
  unfold on_markAsSeen, markAsSeen_session, tryCatch, ChatSession_findOne,
    session_save, bind.
  destruct faults as [ff sf]; cbn.
  destruct ff; cbn; [reflexivity|].
  destruct (ChatSession.findOne _ _); cbn; [|reflexivity].
  destruct sf; cbn; rewrite ?app_nil_r; reflexivity.
Qed.

Section HandlerRuns.

Variable jwt_verify : string -> option string.

Lemma on_connection_accepts (sid token userId : string) (w : World) :
  jwt_verify token = Some userId ->
  on_connection jwt_verify sid token w =
  (Normal tt,
   {| onlineUsers := Js.set_add (onlineUsers w) userId;
      sockets := sockets w ++ [Socket.mk sid userId];
      chatSessions := chatSessions w |},
   ConsoleLog "User connected:"
     :: deliver (UserOnline userId) (sockets w ++ [Socket.mk sid userId])
     ++ [Emit sid (OnlineUsers (Js.set_add (onlineUsers w) userId))]).
Proof.
  intros H. unfold on_connection, jwt_verify_userId. rewrite H.
  reflexivity.
Qed.

Lemma on_connection_rejects (sid token : string) (w : World) :
  jwt_verify token = None ->
  on_connection jwt_verify sid token w =
  (Normal tt, w,
   [ConsoleLog "User connected:";
    ConsoleLog "Invalid token on socket connection:";
    SocketDisconnect sid]).
Proof.
  intros H. unfold on_connection, jwt_verify_userId. rewrite H.
  reflexivity.
Qed.

Lemma on_disconnect_run (sid : string) (socket : Socket.t) (w : World) :
  (socket_leave sid ;; on_disconnect socket) w =
  let rest := filter (fun s => negb (Socket.id s =? sid)) (sockets w) in
  if Js.truthy (Socket.userId socket) then
    (Normal tt,
     {| onlineUsers := Js.set_delete (onlineUsers w) (Socket.userId socket);
        sockets := rest;
        chatSessions := chatSessions w |},
     ConsoleLog "User disconnected:"
       :: deliver (UserOffline (Socket.userId socket)) rest)
  else
    (Normal tt,
     {| onlineUsers := onlineUsers w;
        sockets := rest;
        chatSessions := chatSessions w |},
     [ConsoleLog "User disconnected:"]).
Proof.
  unfold on_disconnect. cbn.
  destruct (Js.truthy (Socket.userId socket)); reflexivity.
Qed.

Lemma handle_connection_accepts (sid token userId : string) (w : World) :
  jwt_verify token = Some userId ->
  handle jwt_verify (OnConnection sid token) w =
  (Normal tt,
   {| onlineUsers := Js.set_add (onlineUsers w) userId;
      sockets := sockets w ++ [Socket.mk sid userId];
      chatSessions := chatSessions w |},
   ConsoleLog "User connected:"
     :: deliver (UserOnline userId) (sockets w ++ [Socket.mk sid userId])
     ++ [Emit sid (OnlineUsers (Js.set_add (onlineUsers w) userId))]).
Proof. exact (on_connection_accepts sid token userId w). Qed.

Lemma handle_connection_rejects (sid token : string) (w : World) :
  jwt_verify token = None ->
  handle jwt_verify (OnConnection sid token) w =
  (Normal tt, w,
   [ConsoleLog "User connected:";
    ConsoleLog "Invalid token on socket connection:";
    SocketDisconnect sid]).
Proof. exact (on_connection_rejects sid token w). Qed.

Lemma handle_disconnect (sid : string) (socket : Socket.t) (w : World) :
  find_socket sid w = Some socket ->
  handle jwt_verify (OnDisconnect sid) w =
  (socket_leave sid ;; on_disconnect socket) w.
Proof. intros H. cbn. unfold with_socket. now rewrite H. Qed.

Lemma handle_unbound (sid : string) (w : World) :
  find_socket sid w = None ->
  handle jwt_verify (OnDisconnect sid) w = (Normal tt, w, []).
Proof. intros H. cbn. unfold with_socket. now rewrite H. Qed.

End HandlerRuns.

(** ** Presence *)

Lemma set_add_In (s : list string) (x y : string) :
  In y (Js.set_add s x) <-> In y s \/ y = x.
Proof.
  unfold Js.set_add, Js.set_has.
  destruct (existsb (String.eqb x) s) eqn:E.
  - split; [tauto|]. intros [H| ->]; [exact H|].
    apply existsb_exists in E as (z & Hz & Heq).
    apply String.eqb_eq in Heq. now subst.
  - rewrite in_app_iff. cbn. intuition congruence.
Qed.

Lemma set_delete_In (s : list string) (x y : string) :
  In y (Js.set_delete s x) <-> In y s /\ y <> x.
Proof.
  unfold Js.set_delete. rewrite filter_In, negb_true_iff, String.eqb_neq.
  reflexivity.
Qed.

Lemma find_socket_In (sid : string) (w : World) (socket : Socket.t) :
  find_socket sid w = Some socket ->
  In socket (sockets w) /\ Socket.id socket = sid.
Proof.
  unfold find_socket. intros H. apply find_some in H as [Hin Heq].
  now apply String.eqb_eq in Heq.
Qed.

Lemma NoDup_ids_inj (l : list Socket.t) (a b : Socket.t) :
  NoDup (map Socket.id l) -> In a l -> In b l ->
  Socket.id a = Socket.id b -> a = b.
Proof.
  induction l as [|x l IH]; cbn; [tauto|].
  intros Hnd Ha Hb Heq. inversion Hnd as [|? ? Hx Hl]; subst.
  destruct Ha as [->|Ha], Hb as [->|Hb]; auto.
  - exfalso. apply Hx. rewrite Heq. now apply in_map.
  - exfalso. apply Hx. rewrite <- Heq. now apply in_map.
Qed.

Lemma NoDup_ids_filter (f : Socket.t -> bool) (l : list Socket.t) :
  NoDup (map Socket.id l) -> NoDup (map Socket.id (filter f l)).
Proof.
  induction l as [|x l IH]; cbn; [auto|].
  intros Hnd. inversion Hnd as [|? ? Hx Hl]; subst.
  destruct (f x); cbn; auto.
  constructor; auto.
  intros Hin. apply Hx. apply in_map_iff in Hin as (y & Hy & Hin).
  apply filter_In in Hin as [Hin _]. rewrite <- Hy. now apply in_map.
Qed.

Section Presence.

Variable jwt_verify : string -> option string.

(** [typing], [stopTyping], [sendFile] and [markAsSeen] leave the
    presence set and the connections as they are, also when they
    throw. *)
Lemma handle_keeps_presence (ev : ClientEvent) (w : World) :
  match ev with
  | OnConnection _ _ | OnDisconnect _ => True
  | _ =>
      onlineUsers (world (handle jwt_verify ev w)) = onlineUsers w
      /\ sockets (world (handle jwt_verify ev w)) = sockets w
  end.
Proof.
  destruct ev as [| sid r | sid r | sid p now f | sid sender f | | sid e];
    auto;
    cbn; unfold with_socket; destruct (find_socket sid w) as [socket|];
    auto.
  - rewrite on_sendFile_run.
    destruct (sf_fileData p); auto.
    destruct (missing_fields p); auto.
    destruct (findOne_fails f || save_fails f); auto.
  - rewrite on_markAsSeen_run.
    destruct (findOne_fails f); auto.
    destruct (ChatSession.findOne _ _); auto.
    destruct (save_fails f); auto.
Qed.

(** No two bound connections share an id. *)
Lemma reachable_ids (w : World) :
  reachable jwt_verify w -> NoDup (map Socket.id (sockets w)).
Proof.
  induction 1 as [coll | w ev Hw IH Hadm]; [constructor|].
  pose proof (handle_keeps_presence ev w) as Hk.
  destruct ev as [sid token | | | | | sid | ].
  2-5, 7: destruct Hk as [_ Hs]; rewrite Hs; exact IH.
  - cbn in Hadm. destruct (jwt_verify token) as [u|] eqn:Hv.
    + rewrite (handle_connection_accepts _ _ _ _ _ Hv). cbn.
      rewrite map_app. cbn.
      apply NoDup_app; [exact IH | repeat constructor; cbn; tauto |].
      intros x Hx [<-|[]].
      apply negb_true_iff in Hadm.
      apply in_map_iff in Hx as (s & Hs & Hin).
      assert (existsb (fun s => Socket.id s =? sid) (sockets w) = true)
        as Hex
        by (apply existsb_exists; exists s; split;
            [exact Hin | now apply String.eqb_eq]).
      congruence.
    + rewrite (handle_connection_rejects _ _ _ _ Hv). exact IH.
  - destruct (find_socket sid w) as [socket|] eqn:Hf;
      [|rewrite (handle_unbound _ _ _ Hf); exact IH].
    rewrite (handle_disconnect _ _ _ _ Hf), on_disconnect_run. cbn.
    destruct (Js.truthy (Socket.userId socket)); cbn;
      now apply NoDup_ids_filter.
Qed.

(** Whoever is in the presence set has a bound connection. *)
Lemma reachable_online_live (w : World) :
  reachable jwt_verify w ->
  forall userId,
    Js.truthy userId = true -> In userId (onlineUsers w) -> live w userId.
Proof.
  induction 1 as [coll | w ev Hw IH Hadm]; [intros ? _ []|].
  pose proof (handle_keeps_presence ev w) as Hk.
  pose proof (reachable_ids w Hw) as Hnd.
  destruct ev as [sid token | | | | | sid | ].
  2-5, 7: destruct Hk as [Ho Hs]; unfold live; rewrite Ho, Hs; exact IH.
  - destruct (jwt_verify token) as [u|] eqn:Hv.
    + rewrite (handle_connection_accepts _ _ _ _ _ Hv). unfold live; cbn.
      intros x Hx Hin. apply set_add_In in Hin as [Hin| ->].
      * destruct (IH x Hx Hin) as (s & Hs & Hu).
        exists s. split; [apply in_app_iff; now left | exact Hu].
      * exists (Socket.mk sid u).
        split; [apply in_app_iff; right; now left | reflexivity].
    + rewrite (handle_connection_rejects _ _ _ _ Hv). exact IH.
  - destruct (find_socket sid w) as [socket|] eqn:Hf;
      [|rewrite (handle_unbound _ _ _ Hf); exact IH].
    rewrite (handle_disconnect _ _ _ _ Hf), on_disconnect_run.
    apply find_socket_In in Hf as [Hsock Hid]. cbn.
    assert (forall x, Js.truthy x = true -> In x (onlineUsers w) ->
                      x <> Socket.userId socket ->
                      exists s,
                        In s (filter (fun s => negb (Socket.id s =? sid))
                                     (sockets w))
                        /\ Socket.userId s = x) as Hrest.
    { intros x Hx Hin Hne. destruct (IH x Hx Hin) as (s & Hs & Hu).
      exists s. split; [|exact Hu].
      apply filter_In. split; [exact Hs|].
      apply negb_true_iff, String.eqb_neq. intros Hsid.
      apply Hne. rewrite <- Hu. f_equal.
      apply (NoDup_ids_inj (sockets w)); auto. congruence. }
    destruct (Js.truthy (Socket.userId socket)) eqn:Ht; unfold live; cbn.
    + intros x Hx Hin. apply set_delete_In in Hin as [Hin Hne]. auto.
    + intros x Hx Hin. apply Hrest; auto. congruence.
Qed.

End Presence.

Lemma run_app (jwt_verify : string -> option string) (w : World)
      (evs1 evs2 : list ClientEvent) :
  run jwt_verify w (evs1 ++ evs2) =
  let '(w1, o1) := run jwt_verify w evs1 in
  let '(w2, o2) := run jwt_verify w1 evs2 in
  (w2, o1 ++ o2).
Proof.
  revert w. induction evs1 as [|ev evs1 IH]; intros w; cbn.
  - now destruct (run jwt_verify w evs2).
  - rewrite IH.
    destruct (run jwt_verify (world (handle jwt_verify ev w)) evs1)
      as [w1 o1].
    destruct (run jwt_verify w1 evs2) as [w2 o2].
    now rewrite app_assoc.
Qed.

Lemma Demo_both_reachable : reachable Demo.verify Demo.both.
Proof.
  pose proof (reachable_start Demo.verify []) as H0.
  pose proof (reachable_step _ _ (OnConnection "s1" "token-A") H0 eq_refl)
    as H1.
  exact (reachable_step _ _ (OnConnection "s2" "token-B") H1 eq_refl).
Qed.

(** C1 (as amended): in every world the server can reach, a non-empty
    identity that is in the presence set has at least one bound
    connection.  The converse is not kept: every accepted connection
    puts its identity in the set and sends userOnline to every bound
    connection, the new one included, whether or not the user was
    online before; every disconnect of a bound connection takes its
    identity out of the set and sends userOffline to every connection
    that is left, whether or not the user has another one. *)
Theorem presence_follows_last_bind
        (jwt_verify : string -> option string) (w : World) :
  reachable jwt_verify w ->
  (forall userId,
      Js.truthy userId = true -> In userId (onlineUsers w) -> live w userId)
  /\ (forall sid token userId,
         jwt_verify token = Some userId ->
         let r := handle jwt_verify (OnConnection sid token) w in
         In userId (onlineUsers (world r))
         /\ forall s, In s (sockets (world r)) ->
                      In (Socket.id s, UserOnline userId) (emits (outputs r)))
  /\ (forall sid socket,
         find_socket sid w = Some socket ->
         Js.truthy (Socket.userId socket) = true ->
         let r := handle jwt_verify (OnDisconnect sid) w in
         ~ In (Socket.userId socket) (onlineUsers (world r))
         /\ forall s, In s (sockets (world r)) ->
                      In (Socket.id s, UserOffline (Socket.userId socket))
                         (emits (outputs r))).
Proof.
  intros Hw. split; [|split].
  - exact (reachable_online_live jwt_verify w Hw).
  - intros sid token u Hv r. subst r.
    rewrite (handle_connection_accepts _ _ _ _ _ Hv).
    unfold world, outputs; cbn. split.
    + apply set_add_In. now right.
    + intros s Hs. rewrite emits_app, emits_deliver.
      apply in_app_iff. left.
      apply in_map_iff. exists s. split; [reflexivity | exact Hs].
  - intros sid socket Hf Ht r. subst r.
    rewrite (handle_disconnect _ _ _ _ Hf), on_disconnect_run. cbn.
    rewrite Ht. unfold world, outputs; cbn. split.
    + intros Hin. apply set_delete_In in Hin as [_ Hne]. now apply Hne.
    + intros s Hs. rewrite emits_deliver.
      apply in_map_iff. exists s. split; [reflexivity | exact Hs].
Qed.

Lemma presence_follows_last_bind_witness :
  reachable Demo.verify Demo.both /\ live Demo.both "A".
Proof.
  split; [exact Demo_both_reachable|].
  apply (presence_follows_last_bind Demo.verify Demo.both Demo_both_reachable);
    [reflexivity | cbn; tauto].
Defined.

(** C1, counterexample: A opens two connections and closes the
    first.  The second bind sends userOnline again, the unbind sends
    userOffline and takes A out of the presence set although A's
    second connection is still bound. *)
Lemma presence_ignores_second_connection :
  let r1 := handle Demo.verify (OnConnection "s1" "token-A") Demo.start in
  let r2 := handle Demo.verify (OnConnection "s2" "token-A") (world r1) in
  let r3 := handle Demo.verify (OnDisconnect "s1") (world r2) in
  reachable Demo.verify (world r3)
  /\ In "A" (onlineUsers (world r1))
  /\ In ("s1", UserOnline "A") (emits (outputs r2))
  /\ In ("s2", UserOffline "A") (emits (outputs r3))
  /\ live (world r3) "A"
  /\ ~ In "A" (onlineUsers (world r3))
  /\ ~ presence_iff_live (world r3).
Proof.
  cbv zeta.
  assert (live (world (handle Demo.verify (OnDisconnect "s1")
                 (world (handle Demo.verify (OnConnection "s2" "token-A")
                    (world (handle Demo.verify (OnConnection "s1" "token-A")
                       Demo.start)))))) "A") as Hlive.
  { exists (Socket.mk "s2" "A"). vm_compute. tauto. }
  repeat split.
  - repeat (apply reachable_step; [|reflexivity]).
    apply (reachable_start Demo.verify []).
  - vm_compute. tauto.
  - vm_compute. tauto.
  - vm_compute. tauto.
  - exact Hlive.
  - vm_compute. tauto.
  - intros Hiff. apply Hiff in Hlive. vm_compute in Hlive. tauto.
Qed.

(** C3 (as amended): an accepted connection gets exactly one
    onlineUsers snapshot, no other connection gets one, and the
    snapshot is the whole presence set after the bind, so it lists the
    new connection's own identity too; with nobody online before, A
    receives [users: [A]]. *)
Theorem snapshot_is_presence_set_after_bind
        (jwt_verify : string -> option string) (w : World)
        (sid token userId : string) :
  jwt_verify token = Some userId ->
  let r := handle jwt_verify (OnConnection sid token) w in
  filter is_snapshot (emits (outputs r))
  = [(sid, OnlineUsers (onlineUsers (world r)))]
  /\ onlineUsers (world r) = Js.set_add (onlineUsers w) userId
  /\ In userId (onlineUsers (world r))
  /\ (onlineUsers w = [] -> onlineUsers (world r) = [userId]).
Proof.
  intros Hv r. subst r.
  rewrite (handle_connection_accepts _ _ _ _ _ Hv).
  unfold world, outputs; cbn.
  repeat split.
  - rewrite emits_app, emits_deliver, filter_app. cbn.
    replace (filter is_snapshot _) with (@nil (string * ServerEvent));
      [reflexivity|].
    symmetry. induction (sockets w ++ [Socket.mk sid userId]) as [|s l IH];
      [reflexivity | exact IH].
  - apply set_add_In. now right.
  - intros ->. reflexivity.
Qed.

Lemma snapshot_is_presence_set_after_bind_witness :
  Demo.verify "token-A" = Some "A"
  /\ filter is_snapshot
       (emits (outputs (handle Demo.verify (OnConnection "s1" "token-A")
                               Demo.start)))
     = [("s1", OnlineUsers ["A"])].
Proof.
  split; [reflexivity|].
  exact (proj1 (snapshot_is_presence_set_after_bind
                  Demo.verify Demo.start "s1" "token-A" "A" eq_refl)).
Defined.

(** C3, counterexample: A connects with a good token while nobody is
    online; the snapshot A receives is [users: [A]], not [users: []]. *)
Lemma first_snapshot_names_the_newcomer :
  let r := handle Demo.verify (OnConnection "s1" "token-A") Demo.start in
  onlineUsers Demo.start = []
  /\ emits (outputs r) = [("s1", UserOnline "A"); ("s1", OnlineUsers ["A"])]
  /\ ~ In ("s1", OnlineUsers []) (emits (outputs r)).
Proof.
  cbv zeta. repeat split.
  intros H. vm_compute in H.
  destruct H as [H|[H|[]]]; discriminate H.
Qed.

(** ** Rejected connections *)

(** C8: a connection whose token does not verify is closed by the
    server; nothing is delivered to any client and the world is
    untouched: the presence set, the bound connections and the stored
    sessions stay as they were.  A server that saw the connection
    somewhere in its history ends in the same world and has delivered
    the same events (so the same snapshots) as one that never saw it,
    and when the connection's id is then reported as disconnected the
    server runs no handler: no userOffline, no change. *)
Theorem rejected_connection_leaves_no_trace
        (jwt_verify : string -> option string) (w : World)
        (sid token : string) :
  jwt_verify token = None ->
  let r := handle jwt_verify (OnConnection sid token) w in
  completion r = Normal tt
  /\ world r = w
  /\ emits (outputs r) = []
  /\ In (SocketDisconnect sid) (outputs r)
  /\ (forall before after : list ClientEvent,
         let seen := run jwt_verify w
                         (before ++ OnConnection sid token :: after) in
         let unseen := run jwt_verify w (before ++ after) in
         fst seen = fst unseen
         /\ emits (snd seen) = emits (snd unseen))
  /\ (find_socket sid w = None ->
      handle jwt_verify (OnDisconnect sid) (world r) = (Normal tt, w, [])).
Proof.
  intros Hv r. subst r.
  rewrite (handle_connection_rejects _ _ _ _ Hv).
  run_parts; cbn.
  repeat split; auto.
  - rewrite !run_app.
    destruct (run jwt_verify w before) as [w1 o1]. cbn [run].
    rewrite (handle_connection_rejects _ _ _ _ Hv).
    unfold world; cbn.
    now destruct (run jwt_verify w1 after).
  - rewrite !run_app.
    destruct (run jwt_verify w before) as [w1 o1]. cbn [run].
    rewrite (handle_connection_rejects _ _ _ _ Hv).
    unfold world, outputs; cbn.
    destruct (run jwt_verify w1 after) as [w2 o2]. cbn.
    rewrite !emits_app. reflexivity.
  - intros Hf. exact (handle_unbound jwt_verify sid w Hf).
Qed.

Lemma rejected_connection_leaves_no_trace_witness :
  Demo.verify "token-forged" = None
  /\ world (handle Demo.verify (OnConnection "s3" "token-forged") Demo.both)
     = Demo.both.
Proof.
  split; [reflexivity|].
  exact (proj1 (proj2 (rejected_connection_leaves_no_trace
                         Demo.verify Demo.both "s3" "token-forged" eq_refl))).
Defined.

(** ** sendFile: validation and failures *)

Lemma missing_fields_false (p : SendFilePayload) :
  missing_fields p = false ->
  exists r d n t,
    sf_receiverId p = Some r /\ sf_fileData p = Some d
    /\ sf_fileName p = Some n /\ sf_fileType p = Some t
    /\ Js.truthy r = true.
Proof.
  unfold missing_fields. intros H.
  repeat (apply orb_false_iff in H as [H ?]).
  destruct p as [[r|] [d|] [n|] [t|]]; cbn in *; try discriminate.
  exists r, d, n, t. repeat split. now apply negb_false_iff in H.
Qed.

(** A payload that lacks a field other than [fileData] (or carries an
    empty one) is dropped by the check: one error line, nothing
    stored, nothing sent, no exception. *)
Lemma sendFile_missing_field_dropped (socket : Socket.t)
      (p : SendFilePayload) (now : Z) (faults : DbFaults) (w : World) :
  sf_fileData p <> None ->
  missing_fields p = true ->
  on_sendFile socket p now faults w =
  (Normal tt, w,
   sendFile_prelude ++ [ConsoleLog "File Data Size:";
                        ConsoleError "Missing file data fields"]).
Proof.
  intros Hd Hm. rewrite on_sendFile_run, Hm.
  destruct (sf_fileData p); [reflexivity | congruence].
Qed.

(** C2, the failing case: when [fileData] is absent the handler reads
    [fileData.length] for its log line before it checks the fields, and
    the read throws a TypeError out of the handler.  Nothing is stored
    and nothing is sent, but the payload is not dropped by the check:
    the "Missing file data fields" line is never printed. *)
Theorem sendFile_absent_fileData_throws (socket : Socket.t)
        (p : SendFilePayload) (now : Z) (faults : DbFaults) (w : World) :
  sf_fileData p = None ->
  let r := on_sendFile socket p now faults w in
  completion r
  = Throw (TypeError "Cannot read properties of undefined (reading 'length')")
  /\ world r = w
  /\ emits (outputs r) = []
  /\ ~ In (ConsoleError "Missing file data fields") (outputs r).
Proof.
  intros Hd r. subst r. rewrite on_sendFile_run, Hd.
  run_parts; cbn. repeat split.
  intros H. repeat (destruct H as [H|H]; [discriminate H|]). exact H.
Qed.

Lemma sendFile_absent_fileData_throws_witness :
  sf_fileData Demo.photo_without_data = None
  /\ completion (handle Demo.verify
                   (OnSendFile "s1" Demo.photo_without_data Demo.clock
                               no_faults)
                   Demo.both)
     = Throw (TypeError "Cannot read properties of undefined (reading 'length')").
Proof.
  split; [reflexivity|].
  exact (proj1 (sendFile_absent_fileData_throws
                  Demo.sA Demo.photo_without_data Demo.clock no_faults
                  Demo.both eq_refl)).
Defined.

(** C5: when the lookup or the save of a [sendFile] fails, no event is
    delivered to any connection, the world (stored sessions, bound
    connections, presence set) is as before, and for a payload that
    passed the field check the handler ends normally after printing
    its error line.  When the lookup or the save of a [markAsSeen]
    fails, no event is delivered either and the world is as before. *)
Theorem persistence_failure_stops_fanout (socket : Socket.t)
        (faults : DbFaults) (w : World) :
  findOne_fails faults || save_fails faults = true ->
  (forall p now,
      let r := on_sendFile socket p now faults w in
      emits (outputs r) = []
      /\ world r = w
      /\ (missing_fields p = false ->
          completion r = Normal tt
          /\ In (ConsoleError "Error processing sendFile:") (outputs r)))
  /\ (forall senderId,
         let r := on_markAsSeen socket senderId faults w in
         emits (outputs r) = []
         /\ world r = w
         /\ completion r = Normal tt).
Proof.
  intros Hf. split.
  - intros p now r. subst r. rewrite on_sendFile_run.
    destruct (sf_fileData p) as [d|] eqn:Hd.
    + destruct (missing_fields p) eqn:Hm.
      * split; [reflexivity | split; [reflexivity | discriminate]].
      * rewrite Hf. run_parts; cbn.
        split; [reflexivity | split; [reflexivity | tauto]].
    + split; [reflexivity | split; [reflexivity|]]. intros Hm.
      apply missing_fields_false in Hm as (? & ? & ? & ? & _ & Hd' & _).
      congruence.
  - intros senderId r. subst r. rewrite on_markAsSeen_run.
    destruct (findOne_fails faults); [repeat split|].
    cbn in Hf. rewrite Hf.
    destruct (ChatSession.findOne _ _); repeat split.
Qed.

Lemma persistence_failure_stops_fanout_witness :
  findOne_fails (mkFaults false true) || save_fails (mkFaults false true)
  = true
  /\ emits (outputs (on_sendFile Demo.sA Demo.photo Demo.clock
                                 (mkFaults false true) Demo.both)) = [].
Proof.
  split; [reflexivity|].
  exact (proj1 (proj1 (persistence_failure_stops_fanout
                         Demo.sA (mkFaults false true) Demo.both eq_refl)
                      Demo.photo Demo.clock)).
Defined.

(** ** markAsSeen *)

(** C9: a [markAsSeen] naming a sender with whom the caller has no
    stored conversation ends normally, leaves the world as it is (no
    session made, no message changed) and delivers nothing; when the
    lookup itself works it prints nothing either. *)
Theorem markAsSeen_without_conversation_is_noop (socket : Socket.t)
        (senderId : option string) (faults : DbFaults) (w : World) :
  ChatSession.findOne (chatSessions w)
    (Js.sort [senderId; Some (Socket.userId socket)]) = None ->
  let r := on_markAsSeen socket senderId faults w in
  completion r = Normal tt
  /\ world r = w
  /\ emits (outputs r) = []
  /\ (findOne_fails faults = false -> outputs r = []).
Proof.
  intros Hnone r. subst r. rewrite on_markAsSeen_run, Hnone.
  destruct (findOne_fails faults);
    (split; [reflexivity | split; [reflexivity | split; [reflexivity|]]]);
    [discriminate | reflexivity].
Qed.

Lemma markAsSeen_without_conversation_is_noop_witness :
  ChatSession.findOne (chatSessions Demo.both)
    (Js.sort [Some "A"; Some (Socket.userId Demo.sB)]) = None
  /\ world (handle Demo.verify (OnMarkAsSeen "s2" (Some "A") no_faults)
                   Demo.both)
     = Demo.both.
Proof.
  split; [reflexivity|].
  exact (proj1 (proj2 (markAsSeen_without_conversation_is_noop
                         Demo.sB (Some "A") no_faults Demo.both eq_refl))).
Defined.

(** ** The stored sessions *)

Lemma array_eqb_refl (q : list (option string)) : Js.array_eqb q q = true.
Proof.
  induction q as [|[x|] q IH]; cbn; auto.
  now rewrite String.eqb_refl.
Qed.

Lemma array_eqb_eq (a b : list (option string)) :
  Js.array_eqb a b = true -> a = b.
Proof.
  revert b. induction a as [|[x|] a IH]; intros [|[y|] b]; cbn;
    try discriminate; auto.
  - intros H. apply andb_true_iff in H as [Hxy Hab].
    apply String.eqb_eq in Hxy. subst. f_equal. auto.
  - intros H. f_equal. auto.
Qed.

Lemma nth_error_replace_at (i j : nat) (v : ChatSession.t)
      (coll : list ChatSession.t) :
  nth_error (ChatSession.replace_at i v coll) j =
  if Nat.eqb j i
  then match nth_error coll i with Some _ => Some v | None => None end
  else nth_error coll j.
Proof.
  revert i j. induction coll as [|x coll IH]; intros i j; cbn.
  - destruct (Nat.eqb j i); destruct i, j; reflexivity.
  - destruct i as [|i], j as [|j]; cbn; auto.
Qed.

Lemma replace_at_twice (i : nat) (v v' : ChatSession.t)
      (coll : list ChatSession.t) :
  ChatSession.replace_at i v (ChatSession.replace_at i v' coll)
  = ChatSession.replace_at i v coll.
Proof.
  revert i. induction coll as [|x coll IH]; intros [|i]; cbn; auto.
  now rewrite IH.
Qed.

(** A session found by [findOne] and written back with the same
    participants is found again, at the same place. *)
Lemma findOne_from_replace (k : nat) (coll : list ChatSession.t)
      (q : list (option string)) (d : ChatSession.doc)
      (v' : ChatSession.t) :
  ChatSession.findOne_from k coll q = Some d ->
  ChatSession.participants v' = ChatSession.participants (ChatSession.value d) ->
  exists i,
    ChatSession.stored_at d = Some (k + i)
    /\ nth_error coll i = Some (ChatSession.value d)
    /\ ChatSession.findOne_from k (ChatSession.replace_at i v' coll) q
       = Some {| ChatSession.stored_at := Some (k + i);
                 ChatSession.value := v' |}.
Proof.
  revert k. induction coll as [|s rest IH]; intros k; cbn; [discriminate|].
  destruct (Js.array_eqb (ChatSession.participants s) q) eqn:E.
  - intros [= <-] Hp. cbn in Hp. exists 0. rewrite Nat.add_0_r. cbn.
    rewrite Hp, E. auto.
  - intros Hd Hp. destruct (IH (S k) Hd Hp) as (i & Hi & Hn & Hf).
    exists (S i). rewrite Nat.add_succ_r. cbn. rewrite E. auto.
Qed.

(** A session added to a collection that has none for its key is the
    one [findOne] returns for that key. *)
Lemma findOne_from_append (k : nat) (coll : list ChatSession.t)
      (v : ChatSession.t) :
  ChatSession.findOne_from k coll (ChatSession.participants v) = None ->
  ChatSession.findOne_from k (coll ++ [v]) (ChatSession.participants v)
  = Some {| ChatSession.stored_at := Some (k + length coll);
            ChatSession.value := v |}.
Proof.
  revert k. induction coll as [|s rest IH]; intros k; cbn.
  - intros _. now rewrite array_eqb_refl, Nat.add_0_r.
  - destruct (Js.array_eqb (ChatSession.participants s) _); [discriminate|].
    intros H. rewrite (IH (S k) H), Nat.add_succ_r. reflexivity.
Qed.

Lemma findOne_participants (coll : list ChatSession.t)
      (q : list (option string)) (d : ChatSession.doc) :
  ChatSession.findOne coll q = Some d ->
  ChatSession.participants (ChatSession.value d) = q.
Proof.
  unfold ChatSession.findOne. generalize 0.
  induction coll as [|s rest IH]; intros k; cbn; [discriminate|].
  destruct (Js.array_eqb (ChatSession.participants s) q) eqn:E; eauto.
  intros [= <-]. now apply array_eqb_eq.
Qed.

(** After a successful [sendFile] the session it saved is the one
    stored under the pair's key. *)
Lemma findOne_after_sendFile (w : World) (socket : Socket.t)
      (p : SendFilePayload) (now : Z) :
  exists i,
    ChatSession.findOne
      (ChatSession.saved (chatSessions w) (sendFile_session w socket p now))
      (Js.sort [Some (Socket.userId socket); sf_receiverId p])
    = Some {| ChatSession.stored_at := Some i;
              ChatSession.value :=
                ChatSession.value (sendFile_session w socket p now) |}.
Proof.
  unfold sendFile_session, ChatSession.findOne.
  set (q := Js.sort _).
  destruct (ChatSession.findOne_from 0 (chatSessions w) q) as [d|] eqn:E.
  - destruct (findOne_from_replace 0 _ q d
                (ChatSession.value
                   (ChatSession.push d (newMessage socket p now)))
                E eq_refl) as (i & Hi & _ & Hf).
    exists i. unfold ChatSession.saved. cbn [ChatSession.push ChatSession.stored_at].
    rewrite Hi. exact Hf.
  - eexists. unfold ChatSession.saved. cbn.
    apply (findOne_from_append 0 (chatSessions w)
             {| ChatSession.participants := q;
                ChatSession.messages :=
                  [Message.cast (newMessage socket p now)] |}).
    exact E.
Qed.

Lemma mark_idempotent (senderId : option string) (msg : Message.t) :
  mark senderId (mark senderId msg) = mark senderId msg.
Proof.
  unfold mark at 2.
  destruct (Js.strict_eq (Message.senderId msg) senderId
            && Message.not_seen msg) eqn:E.
  - unfold mark. rewrite E. cbn. now rewrite andb_false_r.
  - unfold mark. now rewrite E.
Qed.

Lemma markAsSeen_session_idempotent (session : ChatSession.doc)
      (senderId : option string) :
  markAsSeen_session (markAsSeen_session session senderId) senderId
  = markAsSeen_session session senderId.
Proof.
  unfold markAsSeen_session, ChatSession.set_messages. cbn.
  rewrite map_map. f_equal. f_equal.
  apply map_ext. intros msg. apply mark_idempotent.
Qed.

Lemma strict_eq_iff (a : string) (b : option string) :
  Js.strict_eq a b = true <-> b = Some a.
Proof.
  destruct b as [s|]; cbn; [|split; discriminate].
  rewrite String.eqb_eq. split; congruence.
Qed.

(** Where a [markAsSeen] that found [session] puts the marked copy. *)
Lemma markAsSeen_flips_unseen_store (socket : Socket.t)
      (senderId : option string) (w : World) (session : ChatSession.doc) :
  ChatSession.findOne (chatSessions w)
    (Js.sort [senderId; Some (Socket.userId socket)]) = Some session ->
  exists i,
    ChatSession.stored_at session = Some i
    /\ nth_error (chatSessions w) i = Some (ChatSession.value session)
    /\ nth_error
         (chatSessions (world (on_markAsSeen socket senderId no_faults w))) i
       = Some {| ChatSession.participants :=
                   ChatSession.participants (ChatSession.value session);
                 ChatSession.messages :=
                   map (mark senderId)
                       (ChatSession.messages (ChatSession.value session)) |}
    /\ forall j, j <> i ->
                 nth_error
                   (chatSessions
                      (world (on_markAsSeen socket senderId no_faults w))) j
                 = nth_error (chatSessions w) j.
Proof.
  intros Hfind.
  destruct (findOne_from_replace 0 _ _ session
              (ChatSession.value (markAsSeen_session session senderId))
              Hfind eq_refl) as (i & Hi & Hn & _).
  cbn [Nat.add] in Hi.
  rewrite on_markAsSeen_run, Hfind. cbn [findOne_fails save_fails no_faults].
  unfold world, ChatSession.saved. cbn. rewrite Hi.
  exists i. repeat split; auto.
  - rewrite nth_error_replace_at, Nat.eqb_refl, Hn. reflexivity.
  - intros j Hj. rewrite nth_error_replace_at.
    apply Nat.eqb_neq in Hj. now rewrite Hj.
Qed.

(** C6: a [markAsSeen] that finds the conversation writes it back, at
    its place, with [mark] applied to every message in order and every
    other session untouched.  [mark] keeps sender, receiver, file
    fields and timestamp of every message; on a message whose
    [senderId] is the id the event names and that is not yet seen it
    sets [seen] to true; a message whose [senderId] is any other id
    (or any message, when the event names none), and a message already
    seen, it returns as it is.  Running the same [markAsSeen] a second
    time leaves the world of the first run. *)
Theorem markAsSeen_flips_unseen_of_sender (socket : Socket.t)
        (senderId : option string) (w : World) (session : ChatSession.doc) :
  ChatSession.findOne (chatSessions w)
    (Js.sort [senderId; Some (Socket.userId socket)]) = Some session ->
  let r := on_markAsSeen socket senderId no_faults w in
  let again := on_markAsSeen socket senderId no_faults (world r) in
  (exists i,
      ChatSession.stored_at session = Some i
      /\ nth_error (chatSessions w) i = Some (ChatSession.value session)
      /\ nth_error (chatSessions (world r)) i
         = Some {| ChatSession.participants :=
                     ChatSession.participants (ChatSession.value session);
                   ChatSession.messages :=
                     map (mark senderId)
                         (ChatSession.messages (ChatSession.value session)) |}
      /\ forall j, j <> i ->
                   nth_error (chatSessions (world r)) j
                   = nth_error (chatSessions w) j)
  /\ (forall msg,
         let msg' := mark senderId msg in
         (Message.senderId msg', Message.receiverId msg',
          Message.fileData msg', Message.fileName msg',
          Message.fileType msg', Message.isFile msg', Message.timestamp msg')
         = (Message.senderId msg, Message.receiverId msg,
            Message.fileData msg, Message.fileName msg,
            Message.fileType msg, Message.isFile msg, Message.timestamp msg)
         /\ (senderId = Some (Message.senderId msg) ->
             Message.seen msg <> Some true ->
             Message.seen msg' = Some true)
         /\ (senderId <> Some (Message.senderId msg) -> msg' = msg)
         /\ (Message.seen msg = Some true -> msg' = msg))
  /\ world again = world r.
Proof.
  intros Hfind r again.
  destruct (findOne_from_replace 0 _ _ session
              (ChatSession.value (markAsSeen_session session senderId))
              Hfind eq_refl) as (i & Hi & Hn & Hf).
  cbn [Nat.add] in Hi, Hf.
  assert (world r
          = with_sessions w
              (ChatSession.replace_at i
                 (ChatSession.value (markAsSeen_session session senderId))
                 (chatSessions w))) as Hr.
  { subst r. rewrite on_markAsSeen_run, Hfind. cbn.
    unfold world, ChatSession.saved. cbn. now rewrite Hi. }
  split; [|split].
  - exact (markAsSeen_flips_unseen_store socket senderId w session Hfind).
  - intros msg msg'. subst msg'. unfold mark, Message.not_seen.
    pose proof (strict_eq_iff (Message.senderId msg) senderId) as Hiff.
    destruct (Js.strict_eq (Message.senderId msg) senderId);
      destruct msg as [s rc d n t f ts [[|]|]]; cbn in *;
      repeat split; try reflexivity; try discriminate; try congruence;
      intros Hs; try (exfalso; apply Hs, Hiff; reflexivity);
      apply Hiff in Hs; discriminate Hs.
  - subst again. rewrite Hr, on_markAsSeen_run.
    cbn [chatSessions with_sessions sockets onlineUsers findOne_fails
         save_fails no_faults].
    unfold ChatSession.findOne. rewrite Hf.
    assert ({| ChatSession.stored_at := Some i;
               ChatSession.value :=
                 ChatSession.value (markAsSeen_session session senderId) |}
            = markAsSeen_session session senderId) as Hdoc.
    { unfold markAsSeen_session, ChatSession.set_messages. now rewrite Hi. }
    rewrite Hdoc, markAsSeen_session_idempotent.
    unfold ChatSession.saved at 1.
    cbn [markAsSeen_session ChatSession.set_messages ChatSession.stored_at].
    rewrite Hi.
    fold (ChatSession.set_messages session
            (map (mark senderId)
                 (ChatSession.messages (ChatSession.value session)))).
    fold (markAsSeen_session session senderId).
    rewrite replace_at_twice. reflexivity.
Qed.

Lemma markAsSeen_flips_unseen_of_sender_witness :
  ChatSession.findOne (chatSessions Demo.after_upload)
    (Js.sort [Some "A"; Some (Socket.userId Demo.sB)]) = Some Demo.upload_doc
  /\ Message.seen (mark (Some "A")
                        (Message.cast (newMessage Demo.sA Demo.photo
                                                  Demo.clock)))
     = Some true
  /\ mark (Some "B")
          (Message.cast (newMessage Demo.sA Demo.photo Demo.clock))
     = Message.cast (newMessage Demo.sA Demo.photo Demo.clock)
  /\ world (on_markAsSeen Demo.sB (Some "A") no_faults
              (world (on_markAsSeen Demo.sB (Some "A") no_faults
                                    Demo.after_upload)))
     = world (on_markAsSeen Demo.sB (Some "A") no_faults Demo.after_upload).
Proof.
  split; [reflexivity|].
  destruct (markAsSeen_flips_unseen_of_sender
              Demo.sB (Some "A") Demo.after_upload Demo.upload_doc eq_refl)
    as (_ & HA & Hagain).
  destruct (markAsSeen_flips_unseen_of_sender
              Demo.sA (Some "B") Demo.after_upload Demo.upload_doc eq_refl)
    as (_ & HB & _).
  split; [|split; [|exact Hagain]].
  - destruct (HA (Message.cast (newMessage Demo.sA Demo.photo Demo.clock)))
      as (_ & Hflip & _).
    apply Hflip; [reflexivity | discriminate].
  - destruct (HB (Message.cast (newMessage Demo.sA Demo.photo Demo.clock)))
      as (_ & _ & Hkeep & _).
    apply Hkeep. discriminate.
Defined.

(** ** sendFile: what is stored and what is sent *)

(** C4 (as amended): a [sendFile] that passes the field check and whose
    database calls work ends normally; the session stored under the
    pair's key then ends with the new message, which the schema stores
    with [seen = false].  The receiveFile event goes to every
    connection in the receiver's room and then to every connection in
    the sender's room, and its payload is the object literal
    [senderId, receiverId, fileData, fileName, fileType, isFile: true,
    timestamp], which has no [seen] field. *)
Theorem sendFile_stores_unseen_sends_literal (socket : Socket.t)
        (p : SendFilePayload) (now : Z) (w : World) :
  missing_fields p = false ->
  let r := on_sendFile socket p now no_faults w in
  let msg := newMessage socket p now in
  completion r = Normal tt
  /\ (exists d before,
         ChatSession.findOne (chatSessions (world r))
           (Js.sort [Some (Socket.userId socket); sf_receiverId p]) = Some d
         /\ ChatSession.messages (ChatSession.value d)
            = before ++ [Message.cast msg])
  /\ Message.seen (Message.cast msg) = Some false
  /\ emits (outputs r)
     = map (fun s => (Socket.id s, ReceiveFile msg))
           (filter (Socket.in_room (sf_receiverId p)) (sockets w))
       ++ map (fun s => (Socket.id s, ReceiveFile msg))
              (filter (Socket.in_room (Some (Socket.userId socket)))
                      (sockets w))
  /\ Message.seen msg = None
  /\ Message.senderId msg = Socket.userId socket
  /\ Some (Message.receiverId msg) = sf_receiverId p
  /\ Some (Message.fileData msg) = sf_fileData p
  /\ Some (Message.fileName msg) = sf_fileName p
  /\ Some (Message.fileType msg) = sf_fileType p
  /\ Message.isFile msg = true
  /\ Message.timestamp msg = now.
Proof.
  intros Hm r msg.
  destruct (missing_fields_false p Hm)
    as (rc & d & n & t & Hr & Hd & Hn & Ht & _).
  assert (r = (Normal tt,
               with_sessions w
                 (ChatSession.saved (chatSessions w)
                    (sendFile_session w socket p now)),
               sendFile_prelude
                 ++ [ConsoleLog "File Data Size:";
                     ConsoleLog "File saved to DB"]
                 ++ deliver (ReceiveFile msg)
                      (filter (Socket.in_room (sf_receiverId p)) (sockets w))
                 ++ deliver (ReceiveFile msg)
                      (filter (Socket.in_room (Some (Socket.userId socket)))
                              (sockets w)))) as ->.
  { subst r. rewrite on_sendFile_run, Hd, Hm. reflexivity. }
  run_parts.
  split; [reflexivity|]. split.
  - destruct (findOne_after_sendFile w socket p now) as (i & Hi).
    eexists. exists (ChatSession.messages
                       (ChatSession.value
                          (match ChatSession.findOne (chatSessions w)
                                   (Js.sort [Some (Socket.userId socket);
                                             sf_receiverId p]) with
                           | Some session => session
                           | None =>
                               ChatSession.new
                                 (Js.sort [Some (Socket.userId socket);
                                           sf_receiverId p])
                           end))).
    split; [exact Hi | reflexivity].
  - split; [reflexivity|]. split.
    + rewrite !emits_app, !emits_deliver. reflexivity.
    + subst msg. unfold newMessage. cbn. rewrite Hr, Hd, Hn, Ht.
      repeat split.
Qed.

Lemma sendFile_stores_unseen_sends_literal_witness :
  missing_fields Demo.photo = false
  /\ emits (outputs (on_sendFile Demo.sA Demo.photo Demo.clock no_faults
                                 Demo.both))
     = [("s2", ReceiveFile (newMessage Demo.sA Demo.photo Demo.clock));
        ("s1", ReceiveFile (newMessage Demo.sA Demo.photo Demo.clock))].
Proof.
  split; [reflexivity|].
  exact (proj1 (proj2 (proj2 (proj2
           (sendFile_stores_unseen_sends_literal
              Demo.sA Demo.photo Demo.clock Demo.both eq_refl))))).
Defined.

(** C4, counterexample: A sends B a file.  Both deliveries of
    receiveFile carry a payload without a [seen] field, so not
    [seen: false]; only the stored copy has it. *)
Lemma receiveFile_payload_lacks_seen :
  let r := handle Demo.verify (OnSendFile "s1" Demo.photo Demo.clock no_faults)
                  Demo.both in
  completion r = Normal tt
  /\ (forall to ev,
         In (to, ev) (emits (outputs r)) ->
         exists msg, ev = ReceiveFile msg /\ Message.seen msg <> Some false)
  /\ In ("s2", ReceiveFile (newMessage Demo.sA Demo.photo Demo.clock))
        (emits (outputs r))
  /\ In ("s1", ReceiveFile (newMessage Demo.sA Demo.photo Demo.clock))
        (emits (outputs r)).
Proof.
  cbv zeta. split; [reflexivity|]. split; [|split; vm_compute; tauto].
  intros to ev H. vm_compute in H.
  destruct H as [H|[H|[]]]; inversion H; subst;
    eexists; (split; [reflexivity | discriminate]).
Qed.

(** ** The conversation key *)

Lemma sort_pair_comm (a b : option string) : Js.sort [a; b] = Js.sort [b; a].
Proof.
  unfold Js.sort. destruct a as [x|], b as [y|]; cbn; try reflexivity.
  destruct (x <=? y) eqn:Hxy, (y <=? x) eqn:Hyx; try reflexivity.
  - now rewrite (String.leb_antisym x y Hxy Hyx).
  - destruct (String.leb_total x y); congruence.
Qed.

Lemma sort_pair_cases (a b : option string) :
  Js.sort [a; b] = [a; b] \/ Js.sort [a; b] = [b; a].
Proof.
  unfold Js.sort. cbn [fold_right Js.insert].
  destruct (Js.before a b); auto.
Qed.

Lemma sort_pair_ascending (x y : string) :
  exists lo hi,
    Js.sort [Some x; Some y] = [Some lo; Some hi]
    /\ (lo <=? hi) = true
    /\ ((lo = x /\ hi = y) \/ (lo = y /\ hi = x)).
Proof.
  unfold Js.sort. cbn [fold_right Js.insert Js.before].
  destruct (x <=? y) eqn:E.
  - exists x, y. auto.
  - exists y, x. repeat split; auto.
    destruct (String.leb_total x y); congruence.
Qed.

(** C7: the key of a pair is the pair with the smaller id first.  Both
    orders of a pair give that same key, two pairs with the same key
    are the same pair in one order or the other, and the
    lookup-or-create of lines 122 to 126 returns, for both orders, the
    same session, whose participants are that key.  After A's
    [sendFile] to B, the lookup that B's [markAsSeen] naming A
    performs returns the session the [sendFile] saved, and the
    [markAsSeen] rewrites that session, at its place, with A's
    messages marked. *)
Theorem conversation_key_ignores_pair_order (a b : option string) :
  Js.sort [a; b] = Js.sort [b; a]
  /\ (forall x y,
         a = Some x -> b = Some y ->
         exists lo hi,
           Js.sort [a; b] = [Some lo; Some hi]
           /\ (lo <=? hi) = true
           /\ ((lo = x /\ hi = y) \/ (lo = y /\ hi = x)))
  /\ (forall c d,
         Js.sort [a; b] = Js.sort [c; d] ->
         (a = c /\ b = d) \/ (a = d /\ b = c))
  /\ (forall faults w, findOrCreate faults a b w = findOrCreate faults b a w)
  /\ (forall faults w session,
         completion (findOrCreate faults a b w) = Normal session ->
         ChatSession.participants (ChatSession.value session)
         = Js.sort [a; b])
  /\ (forall (sender receiver : Socket.t) p now w,
         Some (Socket.userId sender) = a ->
         Some (Socket.userId receiver) = b ->
         sf_receiverId p = b ->
         missing_fields p = false ->
         let sent := on_sendFile sender p now no_faults w in
         let read := on_markAsSeen receiver a no_faults (world sent) in
         exists i,
           ChatSession.findOne (chatSessions (world sent))
             (Js.sort [a; Some (Socket.userId receiver)])
           = Some {| ChatSession.stored_at := Some i;
                     ChatSession.value :=
                       ChatSession.value (sendFile_session w sender p now) |}
           /\ nth_error (chatSessions (world read)) i
              = Some {| ChatSession.participants :=
                          ChatSession.participants
                            (ChatSession.value
                               (sendFile_session w sender p now));
                        ChatSession.messages :=
                          map (mark a)
                              (ChatSession.messages
                                 (ChatSession.value
                                    (sendFile_session w sender p now))) |}).
Proof.
  split; [apply sort_pair_comm|].
  split; [intros x y -> ->; apply sort_pair_ascending|].
  split; [|split; [|split]].
  - intros c d Heq.
    destruct (sort_pair_cases a b) as [Hab|Hab],
             (sort_pair_cases c d) as [Hcd|Hcd];
      rewrite Hab, Hcd in Heq; injection Heq as -> ->; auto.
  - intros faults w. unfold findOrCreate. now rewrite (sort_pair_comm a b).
  - intros faults w session.
    unfold findOrCreate, ChatSession_findOne, bind, completion.
    destruct (findOne_fails faults); cbn; [discriminate|].
    destruct (ChatSession.findOne (chatSessions w) (Js.sort [a; b]))
      as [found|] eqn:Hfind; cbn; intros [= <-].
    + exact (findOne_participants _ _ _ Hfind).
    + reflexivity.
  - intros sender receiver p now w Ha Hb Hrc Hm sent read.
    destruct (missing_fields_false p Hm) as (? & d & _ & _ & _ & Hd & _).
    assert (world sent
            = with_sessions w
                (ChatSession.saved (chatSessions w)
                   (sendFile_session w sender p now))) as Hsent.
    { subst sent. rewrite on_sendFile_run, Hd, Hm. reflexivity. }
    destruct (findOne_after_sendFile w sender p now) as (i & Hi).
    rewrite Hrc, <- Hb, Ha in Hi.
    assert (ChatSession.findOne (chatSessions (world sent))
              (Js.sort [a; Some (Socket.userId receiver)])
            = Some {| ChatSession.stored_at := Some i;
                      ChatSession.value :=
                        ChatSession.value (sendFile_session w sender p now) |})
      as Hfound by (rewrite Hsent; exact Hi).
    exists i. split; [exact Hfound|].
    destruct (markAsSeen_flips_unseen_store receiver a (world sent) _ Hfound)
      as (j & Hj & _ & Hn & _).
    injection Hj as <-. exact Hn.
Qed.

Lemma conversation_key_ignores_pair_order_witness :
  Js.sort [Some "B"; Some "A"] = [Some "A"; Some "B"]
  /\ Js.sort [Some "A"; Some "B"] = [Some "A"; Some "B"]
  /\ Js.sort [Some "B"; Some "A"] <> Js.sort [Some "C"; Some "A"]
  /\ exists i,
      ChatSession.findOne
        (chatSessions (world (on_sendFile Demo.sA Demo.photo Demo.clock
                                          no_faults Demo.both)))
        (Js.sort [Some "A"; Some (Socket.userId Demo.sB)])
      = Some {| ChatSession.stored_at := Some i;
                ChatSession.value :=
                  ChatSession.value
                    (sendFile_session Demo.both Demo.sA Demo.photo
                                      Demo.clock) |}.
Proof.
  destruct (conversation_key_ignores_pair_order (Some "B") (Some "A"))
    as (Hkey & Hasc & Hinj & _).
  destruct (conversation_key_ignores_pair_order (Some "A") (Some "B"))
    as (_ & _ & _ & _ & _ & Hflow).
  assert (Js.sort [Some "B"; Some "A"] = [Some "A"; Some "B"]) as HBA.
  { destruct (Hasc "B" "A" eq_refl eq_refl)
      as (lo & hi & Hs & Hle & [[-> ->] | [-> ->]]);
      [vm_compute in Hle; discriminate Hle | exact Hs]. }
  split; [exact HBA|].
  split; [rewrite <- Hkey; exact HBA|].
  split.
  - intros Heq. destruct (Hinj _ _ Heq) as [[H _] | [H _]]; discriminate H.
  - destruct (Hflow Demo.sA Demo.sB Demo.photo Demo.clock Demo.both
                    eq_refl eq_refl eq_refl eq_refl) as (i & Hi & _).
    exists i. exact Hi.
Defined.

(** ** Who an event is attributed to *)

Lemma find_socket_app (sid : string) (l : list Socket.t) (s new : Socket.t) :
  find (fun x => Socket.id x =? sid) l = Some s ->
  find (fun x => Socket.id x =? sid) (l ++ [new]) = Some s.
Proof.
  induction l as [|x l IH]; cbn; [discriminate|].
  destruct (Socket.id x =? sid); auto.
Qed.

Lemma find_socket_filter (sid other : string) (l : list Socket.t)
      (s : Socket.t) :
  other <> sid ->
  find (fun x => Socket.id x =? sid) l = Some s ->
  find (fun x => Socket.id x =? sid)
       (filter (fun x => negb (Socket.id x =? other)) l) = Some s.
Proof.
  intros Hne. induction l as [|x l IH]; cbn; [discriminate|].
  destruct (Socket.id x =? sid) eqn:E.
  - intros [= <-].
    assert ((Socket.id x =? other) = false) as Ho.
    { apply String.eqb_neq. apply String.eqb_eq in E. congruence. }
    rewrite Ho. cbn. now rewrite E.
  - intros H. destruct (negb (Socket.id x =? other)); cbn; rewrite ?E; auto.
Qed.

Lemma findOne_some_nth (coll : list ChatSession.t)
      (q : list (option string)) (d : ChatSession.doc) :
  ChatSession.findOne coll q = Some d ->
  exists i,
    ChatSession.stored_at d = Some i
    /\ nth_error coll i = Some (ChatSession.value d).
Proof.
  intros H.
  destruct (findOne_from_replace 0 coll q d (ChatSession.value d) H eq_refl)
    as (i & Hi & Hn & _).
  exists i. split; [exact Hi | exact Hn].
Qed.

Lemma mark_keeps (senderId : option string) (msg : Message.t) :
  message_identity (mark senderId msg) = message_identity msg
  /\ (Message.seen msg = Some true ->
      Message.seen (mark senderId msg) = Some true).
Proof.
  unfold mark.
  destruct (Js.strict_eq (Message.senderId msg) senderId
            && Message.not_seen msg); auto.
Qed.

Section Attribution.

Variable jwt_verify : string -> option string.

(** A binding stays as it was made until its own disconnect. *)
Lemma binding_kept (sid : string) (socket : Socket.t) (ev : ClientEvent)
      (w : World) :
  find_socket sid w = Some socket ->
  keeps_bound sid ev = true ->
  find_socket sid (world (handle jwt_verify ev w)) = Some socket.
Proof.
  intros Hf Hk.
  pose proof (handle_keeps_presence jwt_verify ev w) as Hp.
  destruct ev as [s token | | | | | s | ].
  2-5, 7: destruct Hp as [_ Hs]; unfold find_socket; rewrite Hs; exact Hf.
  - destruct (jwt_verify token) as [u|] eqn:Hv.
    + rewrite (handle_connection_accepts _ _ _ _ _ Hv).
      now apply find_socket_app.
    + now rewrite (handle_connection_rejects _ _ _ _ Hv).
  - cbn in Hk. apply negb_true_iff, String.eqb_neq in Hk.
    destruct (find_socket s w) as [other|] eqn:Ho.
    + rewrite (handle_disconnect _ _ _ _ Ho), on_disconnect_run. cbn.
      destruct (Js.truthy (Socket.userId other));
        now apply find_socket_filter.
    + now rewrite (handle_unbound _ _ _ Ho).
Qed.

Lemma binding_kept_run (sid : string) (socket : Socket.t)
      (evs : list ClientEvent) (w : World) :
  find_socket sid w = Some socket ->
  forallb (keeps_bound sid) evs = true ->
  find_socket sid (fst (run jwt_verify w evs)) = Some socket.
Proof.
  revert w. induction evs as [|ev evs IH]; intros w Hf Hk; [exact Hf|].
  cbn in Hk. apply andb_true_iff in Hk as [Hev Hevs].
  cbn [run].
  pose proof (IH _ (binding_kept sid socket ev w Hf Hev) Hevs) as H.
  now destruct (run jwt_verify (world (handle jwt_verify ev w)) evs).
Qed.

Lemma bound_after_connection (sid token userId : string) (w : World) :
  jwt_verify token = Some userId ->
  find_socket sid w = None ->
  find_socket sid (world (handle jwt_verify (OnConnection sid token) w))
  = Some (Socket.mk sid userId).
Proof.
  intros Hv Hf. rewrite (handle_connection_accepts _ _ _ _ _ Hv).
  unfold find_socket, world in *. cbn.
  induction (sockets w) as [|x l IH]; cbn in *.
  - now rewrite String.eqb_refl.
  - destruct (Socket.id x =? sid); [discriminate | auto].
Qed.

(** Every event a handler of [socket] delivers names [socket]'s own
    user as the one who caused it. *)
Lemma handlers_name_their_socket (socket : Socket.t) (sid : string)
      (ev : ClientEvent) (w : World) :
  find_socket sid w = Some socket ->
  client_event_of sid ev ->
  forall to e,
    In (to, e) (emits (outputs (handle jwt_verify ev w))) ->
    caller_of e = Some (Socket.userId socket).
Proof.
  intros Hf Hev to e.
  assert (forall ev' l,
             In (to, e) (emits (deliver ev' l)) -> e = ev') as Hdel.
  { intros ev' l H. rewrite emits_deliver in H.
    apply in_map_iff in H as (? & [= _ <-] & _). reflexivity. }
  destruct ev as [| s rc | s rc | s p now f | s sender f | | s event];
    cbn in Hev; try contradiction; subst s;
    cbn [handle]; unfold with_socket; rewrite Hf; [| | | | intros []].
  - unfold on_typing, socket_to, outputs. cbn [snd].
    intros H. now rewrite (Hdel _ _ H).
  - unfold on_stopTyping, socket_to, outputs. cbn [snd].
    intros H. now rewrite (Hdel _ _ H).
  - rewrite on_sendFile_run.
    destruct (sf_fileData p); [|intros []].
    destruct (missing_fields p); [intros []|].
    destruct (findOne_fails f || save_fails f); [intros []|].
    unfold outputs. cbn [snd]. rewrite !emits_app.
    intros H. cbn in H.
    apply in_app_iff in H as [H|H]; now rewrite (Hdel _ _ H).
  - rewrite on_markAsSeen_run.
    destruct (findOne_fails f); [intros []|].
    destruct (ChatSession.findOne _ _); [|intros []].
    destruct (save_fails f); [intros []|].
    unfold outputs. cbn [snd].
    intros H. now rewrite (Hdel _ _ H).
Qed.

(** What a handler of [socket] does to the collection. *)
Lemma bound_handler_store (socket : Socket.t) (sid : string)
      (ev : ClientEvent) (w : World) :
  find_socket sid w = Some socket ->
  client_event_of sid ev ->
  let coll' := chatSessions (world (handle jwt_verify ev w)) in
  coll' = chatSessions w
  \/ (exists p now,
         coll' = ChatSession.saved (chatSessions w)
                   (sendFile_session w socket p now))
  \/ (exists senderId session,
         ChatSession.findOne (chatSessions w)
           (Js.sort [senderId; Some (Socket.userId socket)]) = Some session
         /\ coll' = ChatSession.saved (chatSessions w)
                      (markAsSeen_session session senderId)).
Proof.
  intros Hf Hev.
  destruct ev as [| s rc | s rc | s p now f | s sender f | | s event];
    cbn in Hev; try contradiction; subst s;
    cbn [handle]; unfold with_socket; rewrite Hf; cbv zeta.
  - now left.
  - now left.
  - rewrite on_sendFile_run.
    destruct (sf_fileData p); [|now left].
    destruct (missing_fields p); [now left|].
    destruct (findOne_fails f || save_fails f); [now left|].
    right. left. exists p, now. reflexivity.
  - rewrite on_markAsSeen_run.
    destruct (findOne_fails f); [now left|].
    destruct (ChatSession.findOne _ _) as [session|] eqn:Hfind; [|now left].
    destruct (save_fails f); [now left|].
    right. right. exists sender, session. split; [exact Hfind|reflexivity].
  - now left.
Qed.

End Attribution.

Lemma adds_only_refl (userId : string) (coll : list ChatSession.t) :
  adds_only_messages_of userId coll coll.
Proof.
  intros i s k msg Hi Hk. right. exists s, msg. auto.
Qed.

Lemma adds_only_replace (userId : string) (i : nat) (s v : ChatSession.t)
      (coll : list ChatSession.t) :
  nth_error coll i = Some s ->
  (forall k msg',
      nth_error (ChatSession.messages v) k = Some msg' ->
      Message.senderId msg' = userId
      \/ exists msg,
          nth_error (ChatSession.messages s) k = Some msg
          /\ message_identity msg' = message_identity msg) ->
  adds_only_messages_of userId coll (ChatSession.replace_at i v coll).
Proof.
  intros Hi Hv j s' k msg' Hj Hk. rewrite nth_error_replace_at in Hj.
  destruct (Nat.eqb j i) eqn:E.
  - apply Nat.eqb_eq in E. subst j. rewrite Hi in Hj. injection Hj as <-.
    destruct (Hv k msg' Hk) as [H | (msg & Hm & Hid)]; [now left|].
    right. exists s, msg. auto.
  - right. exists s', msg'. auto.
Qed.

Lemma adds_only_sendFile (w : World) (socket : Socket.t)
      (p : SendFilePayload) (now : Z) :
  adds_only_messages_of (Socket.userId socket) (chatSessions w)
    (ChatSession.saved (chatSessions w) (sendFile_session w socket p now)).
Proof.
  assert (forall old k msg',
             nth_error (old ++ [Message.cast (newMessage socket p now)]) k
             = Some msg' ->
             Message.senderId msg' = Socket.userId socket
             \/ exists msg, nth_error old k = Some msg
                            /\ message_identity msg' = message_identity msg)
    as Hpush.
  { intros old k msg' Hk. destruct (Nat.ltb k (length old)) eqn:E.
    - apply Nat.ltb_lt in E. rewrite nth_error_app1 in Hk by exact E.
      right. exists msg'. auto.
    - apply Nat.ltb_ge in E. rewrite nth_error_app2 in Hk by exact E.
      destruct (k - length old) as [|n]; cbn in Hk.
      + injection Hk as <-. now left.
      + destruct n; discriminate Hk. }
  unfold sendFile_session.
  destruct (ChatSession.findOne _ _) as [d|] eqn:Hfind.
  - destruct (findOne_some_nth _ _ _ Hfind) as (i & Hi & Hn).
    unfold ChatSession.saved. cbn [ChatSession.push ChatSession.stored_at].
    rewrite Hi. apply (adds_only_replace _ i _ _ _ Hn).
    intros k msg' Hk. exact (Hpush _ k msg' Hk).
  - unfold ChatSession.saved. cbn [ChatSession.new ChatSession.push
                                    ChatSession.stored_at ChatSession.value
                                    ChatSession.messages
                                    ChatSession.participants].
    intros j s' k msg' Hj Hk.
    destruct (Nat.ltb j (length (chatSessions w))) eqn:E.
    + apply Nat.ltb_lt in E. rewrite nth_error_app1 in Hj by exact E.
      right. exists s', msg'. auto.
    + apply Nat.ltb_ge in E. rewrite nth_error_app2 in Hj by exact E.
      destruct (j - length (chatSessions w)) as [|n]; cbn in Hj.
      * injection Hj as <-. cbn in Hk.
        destruct (Hpush [] k msg' Hk) as [H | (msg & Hm & _)]; [now left|].
        destruct k; discriminate Hm.
      * destruct n; discriminate Hj.
Qed.

Lemma adds_only_marked (userId : string) (coll : list ChatSession.t)
      (q : list (option string)) (session : ChatSession.doc)
      (senderId : option string) :
  ChatSession.findOne coll q = Some session ->
  adds_only_messages_of userId coll
    (ChatSession.saved coll (markAsSeen_session session senderId)).
Proof.
  intros Hfind.
  destruct (findOne_some_nth _ _ _ Hfind) as (i & Hi & Hn).
  unfold ChatSession.saved.
  cbn [markAsSeen_session ChatSession.set_messages ChatSession.stored_at].
  rewrite Hi. apply (adds_only_replace _ i _ _ _ Hn).
  intros k msg' Hk. cbn in Hk. rewrite nth_error_map in Hk.
  destruct (nth_error (ChatSession.messages (ChatSession.value session)) k)
    as [msg|]; [|discriminate Hk].
  injection Hk as <-. right. exists msg.
  split; [reflexivity | apply mark_keeps].
Qed.


(** C10: once a connection is accepted, it stays bound to the identity
    its token verified to through every later event short of its own
    disconnect.  Whatever it then sends as typing, stopTyping,
    sendFile or markAsSeen, with any payload or none, the binding is
    as before, every delivered typing, stopTyping and receiveFile
    names that identity as [senderId] and every messageSeen names it
    as [receiverId]; and every message in the store afterwards either
    has that identity as its [senderId] or was stored before, in the
    same session at the same position with the same sender, receiver,
    file fields and timestamp. *)
Theorem caller_is_the_verified_identity
        (jwt_verify : string -> option string) (w : World)
        (sid token userId : string) (evs : list ClientEvent)
        (ev : ClientEvent) :
  jwt_verify token = Some userId ->
  find_socket sid w = None ->
  forallb (keeps_bound sid) evs = true ->
  client_event_of sid ev ->
  let bound := world (handle jwt_verify (OnConnection sid token) w) in
  let w' := fst (run jwt_verify bound evs) in
  let r := handle jwt_verify ev w' in
  find_socket sid w' = Some (Socket.mk sid userId)
  /\ find_socket sid (world r) = Some (Socket.mk sid userId)
  /\ (forall to e, In (to, e) (emits (outputs r)) -> caller_of e = Some userId)
  /\ adds_only_messages_of userId (chatSessions w') (chatSessions (world r)).
Proof.
  intros Hv Hfresh Hevs Hev bound w' r.
  assert (find_socket sid w' = Some (Socket.mk sid userId)) as Hbound.
  { apply binding_kept_run; [|exact Hevs].
    now apply bound_after_connection. }
  split; [exact Hbound|]. split; [|split].
  - apply binding_kept; [exact Hbound|].
    destruct ev; cbn in Hev; try contradiction; reflexivity.
  - exact (handlers_name_their_socket jwt_verify _ sid ev w' Hbound Hev).
  - destruct (bound_handler_store jwt_verify _ sid ev w' Hbound Hev)
      as [Heq | [(p & now & Heq) | (sender & session & Hfind & Heq)]];
      fold r in Heq; rewrite Heq.
    + apply adds_only_refl.
    + exact (adds_only_sendFile w' (Socket.mk sid userId) p now).
    + exact (adds_only_marked userId _ _ _ sender Hfind).
Qed.

Lemma caller_is_the_verified_identity_witness :
  Demo.verify "token-A" = Some "A"
  /\ find_socket "s1" Demo.start = None
  /\ forallb (keeps_bound "s1") [OnConnection "s2" "token-B"] = true
  /\ client_event_of "s1" (OnTyping "s1" (Some "B"))
  /\ forall to e,
      In (to, e)
         (emits (outputs (handle Demo.verify (OnTyping "s1" (Some "B"))
                                 Demo.both))) ->
      caller_of e = Some "A".
Proof.
  repeat (split; [reflexivity|]).
  exact (proj1 (proj2 (proj2
           (caller_is_the_verified_identity
              Demo.verify Demo.start "s1" "token-A" "A"
              [OnConnection "s2" "token-B"] (OnTyping "s1" (Some "B"))
              eq_refl eq_refl eq_refl eq_refl)))).
Defined.

(** * Further properties of the handlers *)

(** ** The store under every event *)



Lemma replace_at_length (i : nat) (v : ChatSession.t)
      (coll : list ChatSession.t) :
  length (ChatSession.replace_at i v coll) = length coll.
Proof.
  revert i. induction coll as [|x coll IH]; intros [|i]; cbn; auto.
Qed.


Lemma replace_at_same (i : nat) (s : ChatSession.t)
      (coll : list ChatSession.t) :
  nth_error coll i = Some s -> ChatSession.replace_at i s coll = coll.
Proof.
  revert i. induction coll as [|x coll IH]; intros [|i]; cbn;
    try discriminate.
  - now intros [= ->].
  - intros Hn. now rewrite (IH i Hn).
Qed.

Section Store.

Variable jwt_verify : string -> option string.

(** The three things an event can do to the collection. *)
Lemma handle_store (ev : ClientEvent) (w : World) :
  let coll' := chatSessions (world (handle jwt_verify ev w)) in
  coll' = chatSessions w
  \/ (exists socket p now,
         coll' = ChatSession.saved (chatSessions w)
                   (sendFile_session w socket p now))
  \/ (exists socket senderId session,
         ChatSession.findOne (chatSessions w)
           (Js.sort [senderId; Some (Socket.userId socket)]) = Some session
         /\ coll' = ChatSession.saved (chatSessions w)
                      (markAsSeen_session session senderId)).
Proof.
  cbv zeta.
  destruct ev as [sid token | sid rc | sid rc | sid p now f | sid sender f
                  | sid | sid event].
  - destruct (jwt_verify token) as [u|] eqn:Hv.
    + rewrite (handle_connection_accepts _ _ _ _ _ Hv). now left.
    + rewrite (handle_connection_rejects _ _ _ _ Hv). now left.
  - cbn [handle]. unfold with_socket.
    destruct (find_socket sid w); now left.
  - cbn [handle]. unfold with_socket.
    destruct (find_socket sid w); now left.
  - cbn [handle]. unfold with_socket.
    destruct (find_socket sid w) as [socket|]; [|now left].
    rewrite on_sendFile_run.
    destruct (sf_fileData p); [|now left].
    destruct (missing_fields p); [now left|].
    destruct (findOne_fails f || save_fails f); [now left|].
    right. left. exists socket, p, now. reflexivity.
  - cbn [handle]. unfold with_socket.
    destruct (find_socket sid w) as [socket|]; [|now left].
    rewrite on_markAsSeen_run.
    destruct (findOne_fails f); [now left|].
    destruct (ChatSession.findOne _ _) as [session|] eqn:Hfind; [|now left].
    destruct (save_fails f); [now left|].
    right. right. exists socket, sender, session. split; [exact Hfind|].
    reflexivity.
  - destruct (find_socket sid w) as [socket|] eqn:Hf.
    + rewrite (handle_disconnect _ _ _ _ Hf), on_disconnect_run. cbn.
      destruct (Js.truthy (Socket.userId socket)); now left.
    + rewrite (handle_unbound _ _ _ Hf). now left.  - cbn [handle]. unfold with_socket.
    destruct (find_socket sid w); now left.
Qed.

End Store.

Lemma session_extends_refl (s : ChatSession.t) : session_extends s s.
Proof.
  split; [reflexivity|]. intros k msg H. exists msg. auto.
Qed.

Lemma session_extends_trans (s1 s2 s3 : ChatSession.t) :
  session_extends s1 s2 -> session_extends s2 s3 -> session_extends s1 s3.
Proof.
  intros [Hp1 H1] [Hp2 H2]. split; [congruence|].
  intros k msg Hk.
  destruct (H1 k msg Hk) as (m2 & Hk2 & Hi2 & Hs2).
  destruct (H2 k m2 Hk2) as (m3 & Hk3 & Hi3 & Hs3).
  exists m3. repeat split; [exact Hk3 | congruence | auto].
Qed.

Lemma store_extends_refl (coll : list ChatSession.t) :
  store_extends coll coll.
Proof.
  intros i s H. exists s. split; [exact H | apply session_extends_refl].
Qed.

Lemma store_extends_trans (c1 c2 c3 : list ChatSession.t) :
  store_extends c1 c2 -> store_extends c2 c3 -> store_extends c1 c3.
Proof.
  intros H12 H23 i s Hi.
  destruct (H12 i s Hi) as (s2 & Hi2 & He2).
  destruct (H23 i s2 Hi2) as (s3 & Hi3 & He3).
  exists s3. split; [exact Hi3 | exact (session_extends_trans _ _ _ He2 He3)].
Qed.

Lemma store_extends_replace (i : nat) (s s' : ChatSession.t)
      (coll : list ChatSession.t) :
  nth_error coll i = Some s ->
  session_extends s s' ->
  store_extends coll (ChatSession.replace_at i s' coll).
Proof.
  intros Hi He j x Hj. rewrite nth_error_replace_at.
  destruct (Nat.eqb j i) eqn:E.
  - apply Nat.eqb_eq in E. subst j. rewrite Hi in *.
    injection Hj as <-. exists s'. auto.
  - exists x. split; [exact Hj | apply session_extends_refl].
Qed.

Lemma store_extends_append (v : ChatSession.t) (coll : list ChatSession.t) :
  store_extends coll (coll ++ [v]).
Proof.
  intros i s Hi. exists s. split; [|apply session_extends_refl].
  rewrite nth_error_app1; [exact Hi|].
  apply nth_error_Some. congruence.
Qed.

Lemma session_extends_push (d : ChatSession.doc) (msg : Message.t) :
  session_extends (ChatSession.value d)
                  (ChatSession.value (ChatSession.push d msg)).
Proof.
  split; [reflexivity|]. intros k m Hk. exists m. cbn.
  rewrite nth_error_app1; [auto|].
  apply nth_error_Some. congruence.
Qed.


Lemma session_extends_marked (d : ChatSession.doc)
      (senderId : option string) :
  session_extends (ChatSession.value d)
                  (ChatSession.value (markAsSeen_session d senderId)).
Proof.
  split; [reflexivity|]. intros k m Hk. exists (mark senderId m). cbn.
  rewrite nth_error_map, Hk. cbn.
  destruct (mark_keeps senderId m). auto.
Qed.

Lemma saved_sendFile_extends (w : World) (socket : Socket.t)
      (p : SendFilePayload) (now : Z) :
  store_extends (chatSessions w)
    (ChatSession.saved (chatSessions w) (sendFile_session w socket p now)).
Proof.
  unfold sendFile_session.
  destruct (ChatSession.findOne _ _) as [d|] eqn:Hfind.
  - destruct (findOne_some_nth _ _ _ Hfind) as (i & Hi & Hn).
    unfold ChatSession.saved. cbn [ChatSession.push ChatSession.stored_at].
    rewrite Hi.
    apply (store_extends_replace i _ _ _ Hn (session_extends_push d _)).
  - apply store_extends_append.
Qed.

Lemma saved_markAsSeen_extends (coll : list ChatSession.t)
      (q : list (option string)) (session : ChatSession.doc)
      (senderId : option string) :
  ChatSession.findOne coll q = Some session ->
  store_extends coll
    (ChatSession.saved coll (markAsSeen_session session senderId)).
Proof.
  intros Hfind.
  destruct (findOne_some_nth _ _ _ Hfind) as (i & Hi & Hn).
  unfold ChatSession.saved.
  cbn [markAsSeen_session ChatSession.set_messages ChatSession.stored_at].
  rewrite Hi.
  apply (store_extends_replace i _ _ _ Hn
           (session_extends_marked session senderId)).
Qed.

(** X1: the message history is append-only.  Whatever sequence of
    events the server handles, every session that was stored is still
    at its place with the same participants, every message it held is
    still at its position with the same sender, receiver, file fields
    and timestamp, and a message that was seen is still seen. *)
Theorem history_is_append_only
        (jwt_verify : string -> option string) (evs : list ClientEvent)
        (w : World) :
  store_extends (chatSessions w)
                (chatSessions (fst (run jwt_verify w evs))).
Proof.
  revert w. induction evs as [|ev evs IH]; intros w.
  - apply store_extends_refl.
  - cbn [run]. specialize (IH (world (handle jwt_verify ev w))).
    destruct (run jwt_verify (world (handle jwt_verify ev w)) evs)
      as [w' o]. cbn [fst] in *.
    refine (store_extends_trans _ _ _ _ IH).
    destruct (handle_store jwt_verify ev w)
      as [-> | [(socket & p & now & ->)
               | (socket & sender & session & Hfind & ->)]].
    + apply store_extends_refl.
    + apply saved_sendFile_extends.
    + exact (saved_markAsSeen_extends _ _ _ _ Hfind).
Qed.





(** X3: [sendFile] makes a conversation only when the pair has none.
    With a session stored under the pair's key, the collection keeps
    its length and that session, at its place, gets the new message
    after the ones it had; without one, the collection gets one new
    session at its end, under the key, holding just the new
    message. *)
Theorem sendFile_creates_only_when_absent (socket : Socket.t)
        (p : SendFilePayload) (now : Z) (w : World) :
  missing_fields p = false ->
  let r := on_sendFile socket p now no_faults w in
  let key := Js.sort [Some (Socket.userId socket); sf_receiverId p] in
  let stored := Message.cast (newMessage socket p now) in
  match ChatSession.findOne (chatSessions w) key with
  | Some d =>
      length (chatSessions (world r)) = length (chatSessions w)
      /\ exists i,
          nth_error (chatSessions w) i = Some (ChatSession.value d)
          /\ nth_error (chatSessions (world r)) i
             = Some {| ChatSession.participants :=
                         ChatSession.participants (ChatSession.value d);
                       ChatSession.messages :=
                         ChatSession.messages (ChatSession.value d)
                           ++ [stored] |}
  | None =>
      chatSessions (world r)
      = chatSessions w
          ++ [ {| ChatSession.participants := key;
                  ChatSession.messages := [stored] |} ]
  end.
Proof.
  intros Hm r key stored.
  destruct (missing_fields_false p Hm) as (? & d & _ & _ & _ & Hd & _).
  assert (chatSessions (world r)
          = ChatSession.saved (chatSessions w)
              (sendFile_session w socket p now)) as ->.
  { subst r. rewrite on_sendFile_run, Hd, Hm. reflexivity. }
  unfold sendFile_session. fold key.
  destruct (ChatSession.findOne (chatSessions w) key) as [doc|] eqn:Hfind.
  - destruct (findOne_some_nth _ _ _ Hfind) as (i & Hi & Hn).
    unfold ChatSession.saved. cbn [ChatSession.push ChatSession.stored_at].
    rewrite Hi. split; [apply replace_at_length|].
    exists i. split; [exact Hn|].
    rewrite nth_error_replace_at, Nat.eqb_refl, Hn. reflexivity.
  - reflexivity.
Qed.

Lemma sendFile_creates_only_when_absent_witness :
  missing_fields Demo.photo = false
  /\ chatSessions (world (on_sendFile Demo.sA Demo.photo Demo.clock
                                      no_faults Demo.both))
     = [ChatSession.value Demo.upload_doc].
Proof.
  split; [reflexivity|].
  exact (sendFile_creates_only_when_absent
           Demo.sA Demo.photo Demo.clock Demo.both eq_refl).
Defined.

(** X4: the key [sendFile] stores a new conversation under is the
    pair in ascending order: two ids, the smaller first, one of them
    the sender's and the other the receiver's. *)
Theorem sendFile_key_is_the_sorted_pair (socket : Socket.t)
        (p : SendFilePayload) :
  missing_fields p = false ->
  exists x y,
    Js.sort [Some (Socket.userId socket); sf_receiverId p] = [Some x; Some y]
    /\ (x <=? y) = true
    /\ ((x = Socket.userId socket /\ Some y = sf_receiverId p)
        \/ (y = Socket.userId socket /\ Some x = sf_receiverId p)).
Proof.
  intros Hm.
  destruct (missing_fields_false p Hm) as (rc & _ & _ & _ & Hr & _).
  rewrite Hr. unfold Js.sort. cbn.
  destruct (Socket.userId socket <=? rc) eqn:E.
  - exists (Socket.userId socket), rc. auto.
  - exists rc, (Socket.userId socket). repeat split; auto.
    destruct (String.leb_total (Socket.userId socket) rc); congruence.
Qed.

Lemma sendFile_key_is_the_sorted_pair_witness :
  missing_fields
    (mkSendFile (Some "A") (Some "cmVwbHk=") (Some "reply.txt")
                (Some "text/plain")) = false
  /\ exists x y,
      Js.sort [Some (Socket.userId Demo.sB); Some "A"] = [Some x; Some y]
      /\ (x <=? y) = true.
Proof.
  split; [reflexivity|].
  destruct (sendFile_key_is_the_sorted_pair
              Demo.sB
              (mkSendFile (Some "A") (Some "cmVwbHk=") (Some "reply.txt")
                          (Some "text/plain"))
              eq_refl) as (x & y & Hk & Hle & _).
  exists x, y. split; [exact Hk | exact Hle].
Defined.

(** ** Who is bound, who is online, who is sent to *)

Lemma set_add_NoDup (s : list string) (x : string) :
  NoDup s -> NoDup (Js.set_add s x).
Proof.
  intros Hnd. unfold Js.set_add, Js.set_has.
  destruct (existsb (String.eqb x) s) eqn:E; [exact Hnd|].
  apply NoDup_app; [exact Hnd | repeat constructor; cbn; tauto |].
  intros y Hy [<-|[]].
  assert (existsb (String.eqb x) s = true) as Hex
      by (apply existsb_exists; exists x; split;
          [exact Hy | apply String.eqb_refl]).
  congruence.
Qed.

Section Bound.

Variable jwt_verify : string -> option string.

(** A user id some token verifies to. *)
Let verified (userId : string) : Prop :=
  exists token, jwt_verify token = Some userId.

Lemma reachable_verified (w : World) :
  reachable jwt_verify w ->
  (forall s, In s (sockets w) -> verified (Socket.userId s))
  /\ (forall userId, In userId (onlineUsers w) -> verified userId).
Proof.
  induction 1 as [coll | w ev Hw [IHs IHo] Hadm]; [split; intros ? []|].
  pose proof (handle_keeps_presence jwt_verify ev w) as Hk.
  destruct ev as [sid token | | | | | sid | ].
  2-5, 7: destruct Hk as [Ho Hs]; rewrite Ho, Hs; auto.
  - destruct (jwt_verify token) as [u|] eqn:Hv.
    + rewrite (handle_connection_accepts _ _ _ _ _ Hv). unfold world; cbn.
      split.
      * intros s Hin. apply in_app_iff in Hin as [Hin|[<-|[]]]; auto.
        exists token. exact Hv.
      * intros x Hin. apply set_add_In in Hin as [Hin| ->]; auto.
        exists token. exact Hv.
    + rewrite (handle_connection_rejects _ _ _ _ Hv). auto.
  - destruct (find_socket sid w) as [socket|] eqn:Hf;
      [|rewrite (handle_unbound _ _ _ Hf); auto].
    rewrite (handle_disconnect _ _ _ _ Hf), on_disconnect_run. cbn.
    destruct (Js.truthy (Socket.userId socket)); unfold world; cbn; split.
    + intros s Hin. apply filter_In in Hin as [Hin _]. auto.
    + intros x Hin. apply set_delete_In in Hin as [Hin _]. auto.
    + intros s Hin. apply filter_In in Hin as [Hin _]. auto.
    + auto.
Qed.

Lemma reachable_online_NoDup (w : World) :
  reachable jwt_verify w -> NoDup (onlineUsers w).
Proof.
  induction 1 as [coll | w ev Hw IH Hadm]; [constructor|].
  pose proof (handle_keeps_presence jwt_verify ev w) as Hk.
  destruct ev as [sid token | | | | | sid | ].
  2-5, 7: destruct Hk as [Ho _]; rewrite Ho; exact IH.
  - destruct (jwt_verify token) as [u|] eqn:Hv.
    + rewrite (handle_connection_accepts _ _ _ _ _ Hv). unfold world; cbn.
      now apply set_add_NoDup.
    + rewrite (handle_connection_rejects _ _ _ _ Hv). exact IH.
  - destruct (find_socket sid w) as [socket|] eqn:Hf;
      [|rewrite (handle_unbound _ _ _ Hf); exact IH].
    rewrite (handle_disconnect _ _ _ _ Hf), on_disconnect_run. cbn.
    destruct (Js.truthy (Socket.userId socket)); unfold world; cbn;
      [|exact IH].
    now apply NoDup_filter.
Qed.

Lemma deliver_targets (ev : ServerEvent) (l : list Socket.t)
      (to : string) (e : ServerEvent) :
  In (to, e) (emits (deliver ev l)) ->
  e = ev /\ exists s, In s l /\ Socket.id s = to.
Proof.
  rewrite emits_deliver. intros H.
  apply in_map_iff in H as (s & [= <- <-] & Hin). eauto.
Qed.

Lemma handle_targets (ev : ClientEvent) (w : World)
      (to : string) (e : ServerEvent) :
  In (to, e) (emits (outputs (handle jwt_verify ev w))) ->
  exists s,
    In s (sockets (world (handle jwt_verify ev w))) /\ Socket.id s = to.
Proof.
  pose proof (handle_keeps_presence jwt_verify ev w) as Hk.
  destruct ev as [sid token | sid rc | sid rc | sid p now f | sid sender f
                  | sid | sid event].
  - destruct (jwt_verify token) as [u|] eqn:Hv.
    + rewrite (handle_connection_accepts _ _ _ _ _ Hv).
      unfold world, outputs; cbn [fst snd sockets].
      cbn [emits]. rewrite emits_app. intros H.
      apply in_app_iff in H as [H|[[= <- _]|[]]].
      * apply deliver_targets in H as (_ & s & Hs & Hid). eauto.
      * exists (Socket.mk sid u). split; [|reflexivity].
        apply in_app_iff. right. now left.
    + rewrite (handle_connection_rejects _ _ _ _ Hv). intros [].
  - destruct Hk as [_ ->]. cbn [handle]. unfold with_socket.
    destruct (find_socket sid w) as [socket|]; [|intros []].
    unfold on_typing, socket_to, outputs. cbn [snd]. intros H.
    apply deliver_targets in H as (_ & s & Hs & Hid).
    apply filter_In in Hs as [Hs _]. eauto.
  - destruct Hk as [_ ->]. cbn [handle]. unfold with_socket.
    destruct (find_socket sid w) as [socket|]; [|intros []].
    unfold on_stopTyping, socket_to, outputs. cbn [snd]. intros H.
    apply deliver_targets in H as (_ & s & Hs & Hid).
    apply filter_In in Hs as [Hs _]. eauto.
  - destruct Hk as [_ ->]. cbn [handle]. unfold with_socket.
    destruct (find_socket sid w) as [socket|]; [|intros []].
    rewrite on_sendFile_run.
    destruct (sf_fileData p); [|intros []].
    destruct (missing_fields p); [intros []|].
    destruct (findOne_fails f || save_fails f); [intros []|].
    unfold outputs. cbn [snd]. rewrite !emits_app.
    intros H. cbn in H.
    apply in_app_iff in H as [H|H];
      apply deliver_targets in H as (_ & x & Hx & Hid);
      apply filter_In in Hx as [Hx _]; eauto.
  - destruct Hk as [_ ->]. cbn [handle]. unfold with_socket.
    destruct (find_socket sid w) as [socket|]; [|intros []].
    rewrite on_markAsSeen_run.
    destruct (findOne_fails f); [intros []|].
    destruct (ChatSession.findOne _ _); [|intros []].
    destruct (save_fails f); [intros []|].
    unfold outputs. cbn [snd]. intros H.
    apply deliver_targets in H as (_ & s & Hs & Hid).
    apply filter_In in Hs as [Hs _]. eauto.
  - destruct (find_socket sid w) as [socket|] eqn:Hf;
      [|rewrite (handle_unbound _ _ _ Hf); intros []].
    rewrite (handle_disconnect _ _ _ _ Hf), on_disconnect_run. cbn.
    destruct (Js.truthy (Socket.userId socket));
      unfold world, outputs; cbn [fst snd sockets emits]; [|intros []].
    intros H. apply deliver_targets in H as (_ & s & Hs & Hid). eauto.
  - cbn [handle]. unfold with_socket.
    destruct (find_socket sid w); intros [].
Qed.

End Bound.

(** X5: nobody is bound or online without a token that verifies.  In
    every world the server can reach, the user of every bound
    connection and every identity in the presence set is one that
    [jwt.verify] returned for some token. *)
Theorem only_verified_users_are_online
        (jwt_verify : string -> option string) (w : World) :
  reachable jwt_verify w ->
  (forall s, In s (sockets w) ->
             exists token, jwt_verify token = Some (Socket.userId s))
  /\ (forall userId, In userId (onlineUsers w) ->
                     exists token, jwt_verify token = Some userId).
Proof. exact (reachable_verified jwt_verify w). Qed.

Lemma only_verified_users_are_online_witness :
  reachable Demo.verify Demo.both
  /\ exists token, Demo.verify token = Some "B".
Proof.
  split; [exact Demo_both_reachable|].
  apply (only_verified_users_are_online Demo.verify Demo.both
                                        Demo_both_reachable).
  cbn. tauto.
Defined.

(** X6: the presence set never lists a user twice, however many
    connections the user has opened and closed, so no onlineUsers
    snapshot names anybody twice. *)
Theorem presence_set_has_no_duplicates
        (jwt_verify : string -> option string) (w : World)
        (sid token userId : string) :
  reachable jwt_verify w ->
  jwt_verify token = Some userId ->
  NoDup (onlineUsers w)
  /\ forall users,
      In (sid, OnlineUsers users)
         (emits (outputs (handle jwt_verify (OnConnection sid token) w))) ->
      NoDup users.
Proof.
  intros Hw Hv.
  pose proof (reachable_online_NoDup jwt_verify w Hw) as Hnd.
  split; [exact Hnd|].
  intros users. rewrite (handle_connection_accepts _ _ _ _ _ Hv).
  unfold outputs. cbn [snd emits]. rewrite emits_app. intros H.
  apply in_app_iff in H as [H|[[= <-]|[]]].
  - apply deliver_targets in H as [[=] _].
  - now apply set_add_NoDup.
Qed.

Lemma presence_set_has_no_duplicates_witness :
  reachable Demo.verify Demo.both
  /\ Demo.verify "token-A" = Some "A"
  /\ NoDup (onlineUsers Demo.both).
Proof.
  split; [exact Demo_both_reachable|]. split; [reflexivity|].
  exact (proj1 (presence_set_has_no_duplicates
                  Demo.verify Demo.both "s3" "token-A" "A"
                  Demo_both_reachable eq_refl)).
Defined.

(** X7: whatever the event, every delivery it causes goes to a
    connection that is bound when the handler is done: a connection
    that was rejected, or that has disconnected, is sent nothing. *)
Theorem events_reach_bound_connections_only
        (jwt_verify : string -> option string) (ev : ClientEvent)
        (w : World) (to : string) (e : ServerEvent) :
  In (to, e) (emits (outputs (handle jwt_verify ev w))) ->
  exists s,
    In s (sockets (world (handle jwt_verify ev w))) /\ Socket.id s = to.
Proof. exact (handle_targets jwt_verify ev w to e). Qed.

Lemma events_reach_bound_connections_only_witness :
  In ("s2", Typing "A" (Some "B"))
     (emits (outputs (handle Demo.verify (OnTyping "s1" (Some "B"))
                             Demo.both)))
  /\ exists s, In s (sockets Demo.both) /\ Socket.id s = "s2".
Proof.
  assert (In ("s2", Typing "A" (Some "B"))
             (emits (outputs (handle Demo.verify (OnTyping "s1" (Some "B"))
                                     Demo.both)))) as H
      by (vm_compute; tauto).
  split; [exact H|].
  exact (events_reach_bound_connections_only
           Demo.verify (OnTyping "s1" (Some "B")) Demo.both _ _ H).
Defined.

(** ** Connecting and leaving *)

Lemma filter_unbound (sid : string) (l : list Socket.t) :
  find (fun s => Socket.id s =? sid) l = None ->
  filter (fun s => negb (Socket.id s =? sid)) l = l.
Proof.
  induction l as [|x l IH]; cbn; [reflexivity|].
  destruct (Socket.id x =? sid); [discriminate|].
  intros H. cbn. now rewrite IH.
Qed.

Lemma set_add_new (s : list string) (x : string) :
  ~ In x s -> Js.set_add s x = s ++ [x].
Proof.
  intros Hx. unfold Js.set_add, Js.set_has.
  destruct (existsb (String.eqb x) s) eqn:E; [|reflexivity].
  apply existsb_exists in E as (y & Hy & Heq).
  apply String.eqb_eq in Heq. subst. contradiction.
Qed.

Lemma set_delete_added (s : list string) (x : string) :
  ~ In x s -> Js.set_delete (s ++ [x]) x = s.
Proof.
  intros Hx. unfold Js.set_delete. rewrite filter_app. cbn.
  rewrite String.eqb_refl. cbn. rewrite app_nil_r.
  induction s as [|y s IH]; cbn; [reflexivity|].
  cbn in Hx.
  assert ((y =? x) = false) as -> by (apply String.eqb_neq; tauto).
  cbn. rewrite IH; tauto.
Qed.

(** X8: a visit leaves no mark.  When a user who is not online
    connects on a fresh id and that connection then disconnects, the
    world is exactly what it was; what was delivered in between is
    userOnline to every connection and the snapshot to the new one,
    then userOffline to the connections that were there before. *)
Theorem connect_then_disconnect_restores
        (jwt_verify : string -> option string) (w : World)
        (sid token userId : string) :
  jwt_verify token = Some userId ->
  Js.truthy userId = true ->
  find_socket sid w = None ->
  ~ In userId (onlineUsers w) ->
  let visit := run jwt_verify w [OnConnection sid token; OnDisconnect sid] in
  fst visit = w
  /\ emits (snd visit)
     = map (fun s => (Socket.id s, UserOnline userId)) (sockets w)
       ++ [(sid, UserOnline userId);
           (sid, OnlineUsers (onlineUsers w ++ [userId]))]
       ++ map (fun s => (Socket.id s, UserOffline userId)) (sockets w).
Proof.
  intros Hv Ht Hfresh Hoff visit. subst visit. cbn [run].
  pose proof (bound_after_connection jwt_verify sid token userId w Hv Hfresh)
    as Hbound.
  rewrite (handle_disconnect _ _ _ _ Hbound), on_disconnect_run.
  rewrite (handle_connection_accepts _ _ _ _ _ Hv).
  unfold world, outputs. cbn [fst snd sockets onlineUsers chatSessions
                               Socket.userId].
  rewrite Ht. cbn [fst snd].
  rewrite filter_app, (filter_unbound sid (sockets w) Hfresh).
  cbn [filter Socket.id]. rewrite String.eqb_refl. cbn [negb].
  rewrite app_nil_r, (set_add_new _ _ Hoff), (set_delete_added _ _ Hoff).
  split; [now destruct w|].
  rewrite !emits_app. cbn [emits].
  rewrite !emits_app, !emits_deliver. cbn [emits].
  rewrite map_app. cbn [map Socket.id].
  rewrite ?app_nil_r, <- ?app_assoc. reflexivity.
Qed.

Lemma connect_then_disconnect_restores_witness :
  Demo.verify "token-B" = Some "B"
  /\ Js.truthy "B" = true
  /\ find_socket "s2" (world (handle Demo.verify
                                (OnConnection "s1" "token-A") Demo.start))
     = None
  /\ fst (run Demo.verify
              (world (handle Demo.verify (OnConnection "s1" "token-A")
                             Demo.start))
              [OnConnection "s2" "token-B"; OnDisconnect "s2"])
     = world (handle Demo.verify (OnConnection "s1" "token-A") Demo.start).
Proof.
  repeat (split; [reflexivity|]).
  refine (proj1 (connect_then_disconnect_restores
                   Demo.verify
                   (world (handle Demo.verify (OnConnection "s1" "token-A")
                                  Demo.start))
                   "s2" "token-B" "B" eq_refl eq_refl eq_refl _)).
  vm_compute. intros [H|[]]. discriminate H.
Defined.

(** X9: the disconnect handler acts only on a non-empty [userId].  A
    connection bound to the empty identity is taken off the list of
    connections when it disconnects, but the presence set is left as
    it is and no userOffline is sent: after connecting and leaving,
    the empty identity is still listed as online. *)
Theorem empty_identity_is_never_taken_offline
        (jwt_verify : string -> option string) (w : World)
        (sid token userId : string) :
  jwt_verify token = Some userId ->
  Js.truthy userId = false ->
  find_socket sid w = None ->
  let joined := handle jwt_verify (OnConnection sid token) w in
  let left := handle jwt_verify (OnDisconnect sid) (world joined) in
  In userId (onlineUsers (world left))
  /\ onlineUsers (world left) = onlineUsers (world joined)
  /\ sockets (world left) = sockets w
  /\ emits (outputs left) = [].
Proof.
  intros Hv Ht Hfresh joined left. subst left joined.
  pose proof (bound_after_connection jwt_verify sid token userId w Hv Hfresh)
    as Hbound.
  rewrite (handle_disconnect _ _ _ _ Hbound), on_disconnect_run.
  rewrite (handle_connection_accepts _ _ _ _ _ Hv).
  unfold world, outputs. cbn [fst snd sockets onlineUsers chatSessions
                               Socket.userId].
  rewrite Ht. cbn [fst snd sockets onlineUsers emits].
  rewrite filter_app, (filter_unbound sid (sockets w) Hfresh).
  cbn [filter Socket.id]. rewrite String.eqb_refl. cbn [negb].
  rewrite app_nil_r.
  repeat split. apply set_add_In. now right.
Qed.

Lemma empty_identity_is_never_taken_offline_witness :
  Js.truthy "" = false
  /\ find_socket "s9" Demo.both = None
  /\ In "" (onlineUsers
              (fst (run (fun _ => Some "") Demo.both
                        [OnConnection "s9" "any"; OnDisconnect "s9"]))).
Proof.
  repeat (split; [reflexivity|]).
  exact (proj1 (empty_identity_is_never_taken_offline
                  (fun _ => Some "") Demo.both "s9" "any" ""
                  eq_refl eq_refl eq_refl)).
Defined.

(** ** typing and stopTyping *)

Lemma socket_to_emits (socket : Socket.t) (room : option string)
      (ev : ServerEvent) (w : World) (to : string) (e : ServerEvent) :
  In (to, e) (emits (outputs (socket_to socket room ev w)))
  <-> e = ev
      /\ exists s,
          In s (sockets w) /\ Socket.id s = to
          /\ Socket.in_room room s = true
          /\ Socket.id s <> Socket.id socket.
Proof.
  unfold socket_to, outputs. cbn [snd]. rewrite emits_deliver, in_map_iff.
  split.
  - intros (s & [= <- <-] & Hin). apply filter_In in Hin as [Hin Hb].
    apply andb_true_iff in Hb as [Hroom Hne].
    apply negb_true_iff, String.eqb_neq in Hne.
    split; [reflexivity|]. exists s. auto.
  - intros (-> & s & Hin & <- & Hroom & Hne). exists s.
    split; [reflexivity|]. apply filter_In. split; [exact Hin|].
    apply andb_true_iff. split; [exact Hroom|].
    now apply negb_true_iff, String.eqb_neq.
Qed.

(** X10: a typing (and a stopTyping) event that carries a payload
    changes nothing on the server and ends normally.  It is delivered,
    with the caller as [senderId] and the named [receiverId], to
    exactly the bound connections in the room [receiverId] other than
    the connection that sent it: the sending connection never gets its
    own event, also when it names its own user, and with no
    [receiverId] in the payload nothing is delivered.  Sent with no
    payload at all, the event makes the handler throw a TypeError
    while it destructures its argument: nothing is delivered and
    nothing changes, but the handler does not end normally. *)
Theorem typing_reaches_the_room_but_not_the_sender
        (jwt_verify : string -> option string) (w : World) (sid : string)
        (socket : Socket.t) (receiverId : option string) :
  find_socket sid w = Some socket ->
  let typing := handle jwt_verify (OnTyping sid receiverId) w in
  let stopTyping := handle jwt_verify (OnStopTyping sid receiverId) w in
  completion typing = Normal tt /\ world typing = w
  /\ completion stopTyping = Normal tt /\ world stopTyping = w
  /\ (forall to e,
         In (to, e) (emits (outputs typing))
         <-> e = Typing (Socket.userId socket) receiverId
             /\ to <> sid
             /\ exists s, In s (sockets w) /\ Socket.id s = to
                          /\ Socket.in_room receiverId s = true)
  /\ (forall to e,
         In (to, e) (emits (outputs stopTyping))
         <-> e = StopTyping (Socket.userId socket) receiverId
             /\ to <> sid
             /\ exists s, In s (sockets w) /\ Socket.id s = to
                          /\ Socket.in_room receiverId s = true)
  /\ (receiverId = None -> outputs typing = [] /\ outputs stopTyping = [])
  /\ (forall event,
         event = EvTyping \/ event = EvStopTyping ->
         handle jwt_verify (OnBare sid event) w
         = (Throw (TypeError "Cannot destructure property 'receiverId' of 'undefined' as it is undefined."),
            w, [])).
Proof.
  intros Hf typing stopTyping. subst typing stopTyping.
  destruct (find_socket_In _ _ _ Hf) as [_ Hid].
  cbn [handle]. unfold with_socket. rewrite Hf.
  unfold on_typing, on_stopTyping.
  repeat (split; [reflexivity|]).
  split; [|split; [|split]].
  4: { intros event [-> | ->]; reflexivity. }
  - intros to e. rewrite socket_to_emits, Hid. split.
    + intros (-> & s & Hin & <- & Hroom & Hne). eauto 7.
    + intros (-> & Hne & s & Hin & <- & Hroom). eauto 7.
  - intros to e. rewrite socket_to_emits, Hid. split.
    + intros (-> & s & Hin & <- & Hroom & Hne). eauto 7.
    + intros (-> & Hne & s & Hin & <- & Hroom). eauto 7.
  - intros ->. unfold socket_to, outputs, deliver. cbn.
    assert (filter (fun _ : Socket.t => false) (sockets w) = []) as ->
        by (induction (sockets w); auto).
    auto.
Qed.

Lemma typing_reaches_the_room_but_not_the_sender_witness :
  find_socket "s1" Demo.both = Some Demo.sA
  /\ completion (handle Demo.verify (OnBare "s1" EvTyping) Demo.both)
     <> Normal tt
  /\ ~ In ("s1", Typing "A" (Some "A"))
          (emits (outputs (handle Demo.verify (OnTyping "s1" (Some "A"))
                                  Demo.both))).
Proof.
  split; [reflexivity|].
  split.
  { rewrite (proj2 (proj2 (proj2 (proj2 (proj2 (proj2 (proj2
               (typing_reaches_the_room_but_not_the_sender
                  Demo.verify Demo.both "s1" Demo.sA (Some "A") eq_refl)))))))
               EvTyping (or_introl eq_refl)).
    discriminate. }
  intros H.
  apply (proj1 (proj2 (proj2 (proj2 (proj2
           (typing_reaches_the_room_but_not_the_sender
              Demo.verify Demo.both "s1" Demo.sA (Some "A") eq_refl))))))
    in H.
  destruct H as (_ & Hne & _). now apply Hne.
Defined.

(** ** sendFile: who is told *)

Lemma in_own_room (socket : Socket.t) :
  Socket.in_room (Some (Socket.userId socket)) socket = true.
Proof.
  unfold Socket.in_room. rewrite String.eqb_refl. apply orb_true_r.
Qed.

Lemma filter_none {A : Type} (f : A -> bool) (l : list A) :
  (forall x, In x l -> f x = false) -> filter f l = [].
Proof.
  induction l as [|x l IH]; cbn; [reflexivity|].
  intros H. rewrite (H x (or_introl eq_refl)). auto.
Qed.

(** What a [sendFile] that reached the store delivered and stored. *)
Lemma sendFile_fanout_parts (socket : Socket.t) (p : SendFilePayload)
      (now : Z) (w : World) :
  missing_fields p = false ->
  emits (outputs (on_sendFile socket p now no_faults w))
  = map (fun s => (Socket.id s, ReceiveFile (newMessage socket p now)))
        (filter (Socket.in_room (sf_receiverId p)) (sockets w))
    ++ map (fun s => (Socket.id s, ReceiveFile (newMessage socket p now)))
           (filter (Socket.in_room (Some (Socket.userId socket)))
                   (sockets w))
  /\ exists d before,
      ChatSession.findOne
        (chatSessions (world (on_sendFile socket p now no_faults w)))
        (Js.sort [Some (Socket.userId socket); sf_receiverId p])
      = Some d
      /\ ChatSession.messages (ChatSession.value d)
         = before ++ [Message.cast (newMessage socket p now)].
Proof.
  intros Hm.
  destruct (missing_fields_false p Hm) as (? & d & _ & _ & _ & Hd & _).
  rewrite on_sendFile_run, Hd, Hm.
  cbn [findOne_fails save_fails no_faults orb].
  unfold world, outputs. cbn [fst snd chatSessions with_sessions].
  split.
  - rewrite !emits_app, !emits_deliver. reflexivity.
  - destruct (findOne_after_sendFile w socket p now) as (i & Hi).
    eexists. eexists. split; [exact Hi|]. reflexivity.
Qed.

(** X11: a stored file always comes back to the connection that sent
    it, and a receiver without a connection does not stop the send:
    the message is stored under the pair's key all the same and only
    the connections in the sender's room are told. *)
Theorem sendFile_echoes_and_survives_offline_receiver
        (w : World) (sid : string) (socket : Socket.t)
        (p : SendFilePayload) (now : Z) :
  find_socket sid w = Some socket ->
  missing_fields p = false ->
  let r := on_sendFile socket p now no_faults w in
  let msg := newMessage socket p now in
  In (sid, ReceiveFile msg) (emits (outputs r))
  /\ ((forall s, In s (sockets w) ->
                 Socket.in_room (sf_receiverId p) s = false) ->
      emits (outputs r)
      = map (fun s => (Socket.id s, ReceiveFile msg))
            (filter (Socket.in_room (Some (Socket.userId socket)))
                    (sockets w))
      /\ exists d before,
          ChatSession.findOne (chatSessions (world r))
            (Js.sort [Some (Socket.userId socket); sf_receiverId p])
          = Some d
          /\ ChatSession.messages (ChatSession.value d)
             = before ++ [Message.cast msg]).
Proof.
  intros Hf Hm r msg.
  destruct (find_socket_In _ _ _ Hf) as [Hin Hid].
  destruct (sendFile_fanout_parts socket p now w Hm) as (Hemits & Hstored).
  fold r msg in Hemits, Hstored.
  split.
  - rewrite Hemits. apply in_app_iff. right.
    apply in_map_iff. exists socket. rewrite Hid.
    split; [reflexivity|]. apply filter_In. split; [exact Hin|].
    apply in_own_room.
  - intros Hoff. split; [|exact Hstored].
    rewrite Hemits, (filter_none _ _ Hoff). reflexivity.
Qed.

Lemma sendFile_echoes_and_survives_offline_receiver_witness :
  find_socket "s1" Demo.both = Some Demo.sA
  /\ missing_fields Demo.photo = false
  /\ In ("s1", ReceiveFile (newMessage Demo.sA Demo.photo Demo.clock))
        (emits (outputs (on_sendFile Demo.sA Demo.photo Demo.clock no_faults
                                     Demo.both))).
Proof.
  repeat (split; [reflexivity|]).
  exact (proj1 (sendFile_echoes_and_survives_offline_receiver
                  Demo.both "s1" Demo.sA Demo.photo Demo.clock
                  eq_refl eq_refl)).
Defined.

(** X12: a file sent to oneself is announced twice.  When
    [receiverId] is the sender's own id the two deliveries go to the
    same room, so every connection of the sender, the sending one
    included, gets receiveFile twice; the store gets at most one new
    session and the pair's session ends with the message. *)
Theorem sendFile_to_self_is_delivered_twice
        (w : World) (sid : string) (socket : Socket.t)
        (p : SendFilePayload) (now : Z) :
  find_socket sid w = Some socket ->
  missing_fields p = false ->
  sf_receiverId p = Some (Socket.userId socket) ->
  let r := on_sendFile socket p now no_faults w in
  let own := map (fun s => (Socket.id s,
                            ReceiveFile (newMessage socket p now)))
                 (filter (Socket.in_room (Some (Socket.userId socket)))
                         (sockets w)) in
  emits (outputs r) = own ++ own
  /\ In (sid, ReceiveFile (newMessage socket p now)) own
  /\ length (chatSessions (world r)) <= S (length (chatSessions w))
  /\ exists d before,
      ChatSession.findOne (chatSessions (world r))
        (Js.sort [Some (Socket.userId socket); Some (Socket.userId socket)])
      = Some d
      /\ ChatSession.messages (ChatSession.value d)
         = before ++ [Message.cast (newMessage socket p now)].
Proof.
  intros Hf Hm Hself r own.
  destruct (find_socket_In _ _ _ Hf) as [Hin Hid].
  destruct (sendFile_fanout_parts socket p now w Hm) as (Hemits & Hstored).
  fold r in Hemits, Hstored. rewrite Hself in Hemits, Hstored.
  fold own in Hemits.
  split; [exact Hemits|]. split; [|split; [|exact Hstored]].
  - subst own. apply in_map_iff. exists socket. rewrite Hid.
    split; [reflexivity|]. apply filter_In. split; [exact Hin|].
    apply in_own_room.
  - pose proof (sendFile_creates_only_when_absent socket p now w Hm) as Hc.
    cbv zeta in Hc. fold r in Hc.
    destruct (ChatSession.findOne (chatSessions w) _) as [old|].
    + destruct Hc as (Hlen & _). rewrite Hlen. lia.
    + rewrite Hc, length_app. cbn. lia.
Qed.

Lemma sendFile_to_self_is_delivered_twice_witness :
  find_socket "s1" Demo.both = Some Demo.sA
  /\ missing_fields
       (mkSendFile (Some "A") (Some "bm90ZQ==") (Some "note.txt")
                   (Some "text/plain")) = false
  /\ emits (outputs (on_sendFile Demo.sA
                       (mkSendFile (Some "A") (Some "bm90ZQ==")
                                   (Some "note.txt") (Some "text/plain"))
                       Demo.clock no_faults Demo.both))
     = [("s1", ReceiveFile
                 (newMessage Demo.sA
                    (mkSendFile (Some "A") (Some "bm90ZQ==")
                                (Some "note.txt") (Some "text/plain"))
                    Demo.clock));
        ("s1", ReceiveFile
                 (newMessage Demo.sA
                    (mkSendFile (Some "A") (Some "bm90ZQ==")
                                (Some "note.txt") (Some "text/plain"))
                    Demo.clock))].
Proof.
  repeat (split; [reflexivity|]).
  exact (proj1 (sendFile_to_self_is_delivered_twice
                  Demo.both "s1" Demo.sA
                  (mkSendFile (Some "A") (Some "bm90ZQ==") (Some "note.txt")
                              (Some "text/plain"))
                  Demo.clock eq_refl eq_refl eq_refl)).
Defined.

(** ** markAsSeen: the receipt *)

Lemma map_mark_nothing (senderId : option string) (msgs : list Message.t) :
  (forall msg, In msg msgs ->
               Js.strict_eq (Message.senderId msg) senderId = false
               \/ Message.seen msg = Some true) ->
  map (mark senderId) msgs = msgs.
Proof.
  induction msgs as [|m msgs IH]; cbn; [reflexivity|].
  intros H. rewrite IH by auto. f_equal.
  unfold mark, Message.not_seen.
  destruct (H m (or_introl eq_refl)) as [-> | ->]; [reflexivity|].
  now rewrite andb_false_r.
Qed.

(** X13: the read receipt does not depend on anything having been
    read.  Whenever [markAsSeen] finds the conversation and the save
    works, messageSeen with the named sender and the caller as
    receiver goes to every connection in the named sender's room; and
    when the conversation holds no unseen message of that sender, this
    happens with the world left exactly as it was. *)
Theorem messageSeen_is_sent_even_when_nothing_changes
        (socket : Socket.t) (senderId : option string) (w : World)
        (session : ChatSession.doc) :
  ChatSession.findOne (chatSessions w)
    (Js.sort [senderId; Some (Socket.userId socket)]) = Some session ->
  let r := on_markAsSeen socket senderId no_faults w in
  emits (outputs r)
  = map (fun s => (Socket.id s,
                   MessageSeen senderId (Socket.userId socket)))
        (filter (Socket.in_room senderId) (sockets w))
  /\ ((forall msg,
          In msg (ChatSession.messages (ChatSession.value session)) ->
          Js.strict_eq (Message.senderId msg) senderId = false
          \/ Message.seen msg = Some true) ->
      world r = w).
Proof.
  intros Hfind r. subst r. rewrite on_markAsSeen_run, Hfind.
  cbn [findOne_fails save_fails no_faults].
  unfold world, outputs. cbn [fst snd].
  split; [apply emits_deliver|].
  intros Hnone.
  destruct (findOne_some_nth _ _ _ Hfind) as (i & Hi & Hn).
  unfold ChatSession.saved, markAsSeen_session, ChatSession.set_messages.
  cbn [ChatSession.stored_at ChatSession.value]. rewrite Hi.
  rewrite (map_mark_nothing _ _ Hnone).
  replace {| ChatSession.participants :=
               ChatSession.participants (ChatSession.value session);
             ChatSession.messages :=
               ChatSession.messages (ChatSession.value session) |}
    with (ChatSession.value session)
    by (now destruct (ChatSession.value session)).
  rewrite (replace_at_same _ _ _ Hn). now destruct w.
Qed.

Lemma messageSeen_is_sent_even_when_nothing_changes_witness :
  let read := world (on_markAsSeen Demo.sB (Some "A") no_faults
                                   Demo.after_upload) in
  ChatSession.findOne (chatSessions read)
    (Js.sort [Some "A"; Some (Socket.userId Demo.sB)])
  = Some (markAsSeen_session Demo.upload_doc (Some "A"))
  /\ emits (outputs (on_markAsSeen Demo.sB (Some "A") no_faults read))
     = [("s1", MessageSeen (Some "A") "B")].
Proof.
  cbv zeta. split; [reflexivity|].
  exact (proj1 (messageSeen_is_sent_even_when_nothing_changes
                  Demo.sB (Some "A")
                  (world (on_markAsSeen Demo.sB (Some "A") no_faults
                                        Demo.after_upload))
                  (markAsSeen_session Demo.upload_doc (Some "A"))
                  eq_refl)).
Defined.

(** ** sendFile: the field check *)




(** ** The users route *)

Lemma filter_throwing_total {A : Type} (f : A -> bool) (arr : list A) :
  filter_throwing (fun x => inr (f x)) arr = inr (filter f arr).
Proof.
  induction arr as [|x arr IH]; cbn; [reflexivity|].
  rewrite IH. reflexivity.
Qed.

(** X15: the users route lists everybody but the caller.  With
    [req.user.userId] set and the query working, the answer is 200
    with the users whose [_id] differs from the caller's, in the order
    the query gave them: the caller is never in the list, every other
    user is, and a caller who is no stored user gets the whole list. *)
Theorem users_route_leaves_out_the_caller
        (users : list User.t) (caller : string) :
  let res := get_users (inr users) (mkRequest (Some (Some caller))) in
  let kept := filter (fun u => negb (User._id u =? caller)) users in
  res = {| status := 200; body := UsersBody kept |}
  /\ (forall u, In u kept <-> In u users /\ User._id u <> caller)
  /\ ((forall u, In u users -> User._id u <> caller) -> kept = users).
Proof.
  cbv zeta. split; [|split].
  - unfold get_users, not_the_caller. cbn [req_user Js.strict_eq].
    now rewrite filter_throwing_total.
  - intros u. rewrite filter_In, negb_true_iff, String.eqb_neq. reflexivity.
  - intros Hall. induction users as [|u users IH]; cbn; [reflexivity|].
    assert ((User._id u =? caller) = false) as ->
        by (apply String.eqb_neq, Hall; now left).
    cbn. f_equal. apply IH. intros x Hx. apply Hall. now right.
Qed.

(** X16: how the users route fails.  A failing query is answered with
    400 and the error's message.  With [req.user] not set, reading
    [req.user.userId] throws inside the filter callback, so the answer
    is 400 with the TypeError's message as soon as there is one user,
    but 200 with an empty list when there is none.  With [req.user]
    set but without a [userId], nobody is left out. *)
Theorem users_route_failures (users : list User.t) (error : string)
        (req : Request) :
  get_users (inl error) req = {| status := 400; body := ErrorBody error |}
  /\ get_users (inr []) req = {| status := 200; body := UsersBody [] |}
  /\ (users <> [] ->
      get_users (inr users) (mkRequest None)
      = {| status := 400;
           body := ErrorBody
                     "Cannot read properties of undefined (reading 'userId')" |})
  /\ get_users (inr users) (mkRequest (Some None))
     = {| status := 200; body := UsersBody users |}.
Proof.
  repeat split.
  - destruct users as [|u users]; [congruence|]. intros _. reflexivity.
  - unfold get_users, not_the_caller. cbn [req_user Js.strict_eq negb].
    rewrite filter_throwing_total. f_equal. f_equal.
    induction users as [|u users IH]; cbn; [reflexivity|]. now rewrite IH.
Qed.

Lemma users_route_failures_witness :
  [User.mk "u1" "ann"] <> []
  /\ status (get_users (inr [User.mk "u1" "ann"]) (mkRequest None)) = 400.
Proof.
  split; [discriminate|].
  refine (f_equal status
            (proj1 (proj2 (proj2
               (users_route_failures [User.mk "u1" "ann"] ""
                                     (mkRequest None)))) _)).
  discriminate.
Defined.

(** ** Messaging and presence *)

(** X17: messaging never touches presence.  Through any sequence of
    typing, stopTyping, sendFile and markAsSeen events in which no
    handler lets an exception escape, from bound or unbound
    connections, with any payload and any database failure, the
    presence set and the list of bound connections stay exactly as
    they were. *)
Theorem messaging_never_touches_presence
        (jwt_verify : string -> option string) (evs : list ClientEvent)
        (w : World) :
  forallb is_messaging evs = true ->
  all_normal jwt_verify w evs = true ->
  onlineUsers (fst (run jwt_verify w evs)) = onlineUsers w
  /\ sockets (fst (run jwt_verify w evs)) = sockets w.
Proof.
  revert w.
  induction evs as [|ev evs IH]; intros w Hevs Hnormal; [split; reflexivity|].
  cbn in Hevs. apply andb_true_iff in Hevs as [Hev Hevs].
  cbn [all_normal] in Hnormal.
  destruct (completion (handle jwt_verify ev w)); [|discriminate Hnormal].
  cbn [run].
  specialize (IH (world (handle jwt_verify ev w)) Hevs Hnormal).
  destruct (run jwt_verify (world (handle jwt_verify ev w)) evs) as [w' o].
  cbn [fst] in *.
  pose proof (handle_keeps_presence jwt_verify ev w) as Hk.
  destruct ev; try discriminate Hev;
    destruct Hk as [Ho Hs]; destruct IH as [IHo IHs]; split; congruence.
Qed.

Lemma messaging_never_touches_presence_witness :
  forallb is_messaging
    [OnSendFile "s1" Demo.photo Demo.clock (mkFaults false true);
     OnMarkAsSeen "s2" None (mkFaults true false);
     OnTyping "s7" (Some "A")] = true
  /\ all_normal Demo.verify Demo.both
       [OnSendFile "s1" Demo.photo Demo.clock (mkFaults false true);
        OnMarkAsSeen "s2" None (mkFaults true false);
        OnTyping "s7" (Some "A")] = true
  /\ sockets (fst (run Demo.verify Demo.both
                       [OnSendFile "s1" Demo.photo Demo.clock
                                   (mkFaults false true);
                        OnMarkAsSeen "s2" None (mkFaults true false);
                        OnTyping "s7" (Some "A")]))
     = sockets Demo.both.
Proof.
  split; [reflexivity|]. split; [reflexivity|].
  exact (proj2 (messaging_never_touches_presence
                  Demo.verify
                  [OnSendFile "s1" Demo.photo Demo.clock
                              (mkFaults false true);
                   OnMarkAsSeen "s2" None (mkFaults true false);
                   OnTyping "s7" (Some "A")]
                  Demo.both eq_refl eq_refl)).
Defined.
